(** * denon_remote: a serial remote control for a Denon 2307CI receiver

    Shallow embedding of [denon_remote.py] (class [DenonRemote]) together
    with the part of pyserial's [serial.Serial] that the class calls.

    The program is Python 2 code: it hands [str] objects to
    [Serial.write], passes a [str] terminator to [read_until], and
    [run_remote.py] parses the volume with [type=int].  On Python 2 the
    [/] of two integers is floor division, which is [Z.div], and
    [str]/[format]/[%d] of an integer print its decimal digits with a
    leading minus sign for negative numbers.

    Python objects are records, the object state and the outside world
    (the serial line and the log) are threaded explicitly through a small
    monad whose outcomes are: the call returns, the call raises, or the
    call never returns (a blocking read on a silent line). *)

From Stdlib Require Import ZArith List String Ascii Bool Lia DecimalString.
Import ListNotations.

Open Scope string_scope.
Open Scope Z_scope.

(** ** Python strings and integers *)

(** The byte written as ['\r'] in the source. *)
Definition CR : ascii := Ascii.ascii_of_nat 13.

(** [str(n)], ['{}'.format(n)] and ['%d' % n] for a Python integer. *)
Definition str_of_int (n : Z) : string :=
  NilZero.string_of_int (Z.to_int n).

(** ['{}'.format(v)] for a value that is a string or [None]. *)
Definition format_opt (v : option string) : string :=
  match v with
  | Some s => s
  | None => "None"
  end.

(** Number of occurrences of a byte in a string. *)
Fixpoint count_byte (c : ascii) (s : string) : nat :=
  match s with
  | EmptyString => 0%nat
  | String a r => ((if Ascii.eqb a c then 1 else 0) + count_byte c r)%nat
  end.

(** The last byte of a string, if any. *)
Fixpoint last_byte (s : string) : option ascii :=
  match s with
  | EmptyString => None
  | String a EmptyString => Some a
  | String _ r => last_byte r
  end.

(** Whether the last byte of a string is a carriage return. *)
Definition ends_with_CR (s : string) : bool :=
  match last_byte s with
  | Some c => Ascii.eqb c CR
  | None => false
  end.

(** Whether a string ends in exactly one carriage return: its last
    byte is one and the byte before it, if there is one, is not. *)
Fixpoint ends_in_one_CR (s : string) : bool :=
  match s with
  | EmptyString => false
  | String a r =>
      match r with
      | EmptyString => Ascii.eqb a CR
      | String b EmptyString => negb (Ascii.eqb a CR) && Ascii.eqb b CR
      | String _ (String _ _) => ends_in_one_CR r
      end
  end.

(** ** The logging module *)

Inductive Level : Type := DEBUG | INFO | WARNING | ERROR | CRITICAL.

(** The numeric values of [logging.DEBUG] ... [logging.CRITICAL]. *)
Definition level_no (l : Level) : Z :=
  match l with
  | DEBUG => 10
  | INFO => 20
  | WARNING => 30
  | ERROR => 40
  | CRITICAL => 50
  end.

(** A logger: its threshold and, in call order, every record handed to
    it through [debug], [info] or [error]. *)
Record Logger : Type := mkLogger {
  level : Level;
  records : list (Level * string)
}.

Definition Logger_log (l : Level) (msg : string) (lg : Logger) : Logger :=
  mkLogger (level lg) (records lg ++ [(l, msg)]).

(** The records that pass the threshold and reach the stream handler. *)
Definition emitted (lg : Logger) : list (Level * string) :=
  filter (fun r => level_no (level lg) <=? level_no (fst r)) (records lg).

(** ** The outside world: the serial line *)

(** One transfer on the line: bytes written by the client, or bytes the
    client took off the line. *)
Inductive Event : Type :=
| Tx (data : string)
| Rx (data : string).

(** A serial device: its name and the baud rates, besides 9600, that
    the platform can set it to.  9600 baud is the setting of the Denon
    2307CI; every device of the model can be set to it. *)
Definition Device : Type := (string * list Z)%type.

(** [rx] is the input as the client gets it: the bytes that reads on
    the open port return, oldest first.  Input that the driver drops
    when a port is opened is never read and is not part of it. *)
Record World : Type := mkWorld {
  devices : list Device;   (* serial ports that can be opened *)
  wire : list Event;       (* transfers so far, oldest first *)
  rx : string              (* bytes the receiver still delivers *)
}.

Definition writes (w : World) : list string :=
  flat_map (fun e => match e with Tx d => [d] | Rx _ => [] end) (wire w).

(** ** pyserial: the part of [serial.Serial] used by the client

    [Serial()] is created without arguments, so its timeout is [None]:
    a read waits until the byte it asks for has arrived. *)
Module serial.

Record Serial : Type := mkSerial {
  is_open : bool;
  baudrate : Z;
  port : option string
}.

(** [serial.Serial()] *)
Definition new : Serial := mkSerial false 9600 None.

(** The [baudrate] setter; it refuses a negative value. *)
Definition set_baudrate (b : Z) (p : Serial) : option Serial :=
  if b <? 0 then None else Some (mkSerial (is_open p) b (port p)).

Definition set_port (n : string) (p : Serial) : Serial :=
  mkSerial (is_open p) (baudrate p) (Some n).

Definition isOpen (p : Serial) : bool := is_open p.

(** The device of that name, if there is one. *)
Definition device (n : string) (w : World) : option Device :=
  find (fun d => String.eqb n (fst d)) (devices w).

(** Whether the platform can set the device to a baud rate. *)
Definition settable (b : Z) (d : Device) : bool :=
  (b =? 9600) || existsb (Z.eqb b) (snd d).

Inductive OpenResult : Type :=
| Opened (p : Serial)
| CannotOpen         (* [SerialException] *)
| CannotConfigure.   (* the platform refuses the settings *)

(** [Serial.open]: fails when no port is configured, when the object
    is open already, or when the device cannot be opened; once the
    device is opened it is configured, and when the platform cannot
    set the baud rate the device is closed again and the error passed
    on.  Opening also clears the input buffer of the driver; what is
    cleared is never read, so [rx], the bytes that reads return, is
    not touched. *)
Definition open (w : World) (p : Serial) : OpenResult :=
  match port p with
  | None => CannotOpen
  | Some n =>
      if is_open p then CannotOpen
      else match device n w with
           | None => CannotOpen
           | Some d =>
               if settable (baudrate p) d
               then Opened (mkSerial true (baudrate p) (port p))
               else CannotConfigure
           end
  end.

Definition close (p : Serial) : Serial :=
  mkSerial false (baudrate p) (port p).

(** [Serial.write]: fails on a port that is not open. *)
Definition write (data : string) (p : Serial) (w : World) : option World :=
  if is_open p
  then Some (mkWorld (devices w) (wire w ++ [Tx data]) (rx w))
  else None.

(** The loop of [Serial.read_until]: take one byte at a time, append
    it to [line], stop once the byte just appended is the terminator
    or [line] has reached [size] bytes.  The terminator stays in the
    line.  [None]: the line went silent first, the read never
    returns. *)
Fixpoint read_until_loop (terminator : ascii) (size : nat)
         (line : string) (incoming : string) : option (string * string) :=
  match incoming with
  | EmptyString => None
  | String c rest =>
      let line' := line ++ String c EmptyString in
      if Ascii.eqb c terminator then Some (line', rest)
      else if (size <=? String.length line')%nat then Some (line', rest)
      else read_until_loop terminator size line' rest
  end.

Inductive ReadResult : Type :=
| ReadOk (data : string) (w : World)
| ReadBlocks
| ReadNotOpen.

(** [Serial.read_until(terminator, size)] *)
Definition read_until (terminator : ascii) (size : nat)
           (p : Serial) (w : World) : ReadResult :=
  if is_open p
  then match read_until_loop terminator size EmptyString (rx w) with
       | Some (data, rest) =>
           ReadOk data (mkWorld (devices w) (wire w ++ [Rx data]) rest)
       | None => ReadBlocks
       end
  else ReadNotOpen.

End serial.

(** ** The client object and the execution monad *)

(** A [DenonRemote] instance.  [__init__] does not create the [port]
    attribute; it exists only once [open] has run. *)
Record DenonRemote : Type := mkRemote {
  logger : Logger;
  port_name : string;
  baud_rate : Z;
  port : option serial.Serial
}.

Record State : Type := mkState {
  self : DenonRemote;
  world : World
}.

(** [ConfigurationError] stands for what [Serial.open] raises when the
    platform cannot set the baud rate: a [ValueError], an
    [OverflowError] or a [SerialException], depending on the platform
    and the rate. *)
Inductive Exn : Type :=
| AttributeError (attr : string)
| ValueError
| ConfigurationError
| SerialException.

Inductive Outcome (A : Type) : Type :=
| Returns (a : A) (s : State)
| Raises (e : Exn) (s : State)
| Blocks (s : State).

Arguments Returns {A} a s.
Arguments Raises {A} e s.
Arguments Blocks {A} s.

Definition M (A : Type) : Type := State -> Outcome A.

Definition ret {A} (a : A) : M A := fun s => Returns a s.

Definition bind {A B} (m : M A) (k : A -> M B) : M B :=
  fun s =>
    match m s with
    | Returns a s' => k a s'
    | Raises e s' => Raises e s'
    | Blocks s' => Blocks s'
    end.

Notation "x <- m ;; k" := (bind m (fun x => k))
  (at level 61, m at next level, right associativity).
Notation "m ;; k" := (bind m (fun _ => k))
  (at level 61, right associativity).

(** The state an outcome ends in. *)
Definition final {A} (o : Outcome A) : State :=
  match o with
  | Returns _ s => s
  | Raises _ s => s
  | Blocks s => s
  end.

Definition raises {A} (o : Outcome A) : bool :=
  match o with
  | Raises _ _ => true
  | _ => false
  end.

(** *** Attribute access *)

Definition set_logger (lg : Logger) (r : DenonRemote) : DenonRemote :=
  mkRemote lg (port_name r) (baud_rate r) (port r).

Definition set_port (p : serial.Serial) (r : DenonRemote) : DenonRemote :=
  mkRemote (logger r) (port_name r) (baud_rate r) (Some p).

(** [self.logger.<level>(msg)] *)
Definition log (l : Level) (msg : string) : M unit :=
  fun s =>
    Returns tt (mkState (set_logger (Logger_log l msg (logger (self s))) (self s))
                        (world s)).

(** Reading [self.port]: an [AttributeError] while the attribute is
    missing. *)
Definition get_port : M serial.Serial :=
  fun s =>
    match port (self s) with
    | Some p => Returns p s
    | None => Raises (AttributeError "port") s
    end.

Definition put_port (p : serial.Serial) : M unit :=
  fun s => Returns tt (mkState (set_port p (self s)) (world s)).

(** [self.port.baudrate = b] *)
Definition port_set_baudrate (b : Z) : M unit :=
  fun s =>
    match port (self s) with
    | None => Raises (AttributeError "port") s
    | Some p =>
        match serial.set_baudrate b p with
        | Some p' => Returns tt (mkState (set_port p' (self s)) (world s))
        | None => Raises ValueError s
        end
    end.

(** [self.port.port = n] *)
Definition port_set_port (n : string) : M unit :=
  p <- get_port ;; put_port (serial.set_port n p).

Definition get_port_name : M string := fun s => Returns (port_name (self s)) s.
Definition get_baud_rate : M Z := fun s => Returns (baud_rate (self s)) s.

(** [self.port.open()] *)
Definition port_open : M unit :=
  fun s =>
    match port (self s) with
    | None => Raises (AttributeError "port") s
    | Some p =>
        match serial.open (world s) p with
        | serial.Opened p' => Returns tt (mkState (set_port p' (self s)) (world s))
        | serial.CannotOpen => Raises SerialException s
        | serial.CannotConfigure => Raises ConfigurationError s
        end
    end.

(** [self.port.close()] *)
Definition port_close : M unit :=
  p <- get_port ;; put_port (serial.close p).

(** [self.port.write(data)] *)
Definition port_write (data : string) : M unit :=
  fun s =>
    match port (self s) with
    | None => Raises (AttributeError "port") s
    | Some p =>
        match serial.write data p (world s) with
        | Some w' => Returns tt (mkState (self s) w')
        | None => Raises SerialException s
        end
    end.

(** [self.port.read_until(terminator, size)] *)
Definition port_read_until (terminator : ascii) (size : nat) : M string :=
  fun s =>
    match port (self s) with
    | None => Raises (AttributeError "port") s
    | Some p =>
        match serial.read_until terminator size p (world s) with
        | serial.ReadOk data w' => Returns data (mkState (self s) w')
        | serial.ReadBlocks => Blocks s
        | serial.ReadNotOpen => Raises SerialException s
        end
    end.

(** ** The methods of [DenonRemote] *)

(** [init_logging]: a logger with the given threshold, then the debug
    line. *)
Definition init_logging (log_level : Level) : Logger :=
  Logger_log DEBUG "logging initialized" (mkLogger log_level []).

(** [__init__(port_name, log_level=logging.ERROR, baud_rate=9600)];
    an omitted keyword argument is [None]. *)
Definition init (name : string) (log_level : option Level)
           (baud : option Z) : DenonRemote :=
  mkRemote (init_logging (match log_level with Some l => l | None => ERROR end))
           name
           (match baud with Some b => b | None => 9600 end)
           None.

Definition open : M unit :=
  n <- get_port_name ;;
  log DEBUG ("opening " ++ n) ;;
  put_port serial.new ;;
  b <- get_baud_rate ;;
  port_set_baudrate b ;;
  n <- get_port_name ;;
  port_set_port n ;;
  port_open.

Definition close : M unit :=
  n <- get_port_name ;;
  log DEBUG ("closing " ++ n) ;;
  port_close.

Definition not_open_msg : string :=
  "Tried to send a command but port wasn't open".

Definition query (q : string) : M (option string) :=
  p <- get_port ;;
  if Bool.eqb (serial.isOpen p) false then
    log ERROR not_open_msg ;;
    ret None
  else
    port_write (q ++ "?" ++ String CR "") ;;
    resp <- port_read_until CR 135 ;;
    ret (Some resp).

Definition command (c : string) : M unit :=
  p <- get_port ;;
  if Bool.eqb (serial.isOpen p) false then
    log ERROR not_open_msg
  else
    port_write (c ++ String CR "").

Definition power_off : M unit :=
  log INFO "powering off" ;;
  command "PWSTANDBY".

Definition power_on : M unit :=
  log INFO "powering on" ;;
  command "PWON".

Definition query_power : M unit :=
  log INFO "querying power status" ;;
  r <- query "PW" ;;
  log INFO ("power: " ++ format_opt r).

Definition query_volume : M unit :=
  log INFO "querying volume status" ;;
  r <- query "MV" ;;
  log INFO ("volume: " ++ format_opt r).

Definition max_volume : Z := 65.
Definition min_volume : Z := 25.

(** The value [set_volume] computes for a percentage. *)
Definition new_volume (volume_level : Z) : Z :=
  volume_level * (max_volume - min_volume) / 100 + min_volume.

Definition set_volume (volume_level : Z) : M unit :=
  let nv := new_volume volume_level in
  if nv >? max_volume then
    log ERROR ("calculated volume setting above max volume level: "
               ++ str_of_int nv)
  else
    log INFO ("setting volume to " ++ str_of_int volume_level
              ++ "% (MV" ++ str_of_int nv ++ ")") ;;
    command ("MV" ++ str_of_int nv).

Definition query_source : M unit :=
  log INFO "querying input source" ;;
  r <- query "SI" ;;
  log INFO ("source: " ++ format_opt r).

Definition set_source (source_name : string) : M unit :=
  log INFO ("setting source to " ++ source_name) ;;
  command ("SI" ++ source_name).

(** ** Operations as data, for statements about every operation *)

Inductive Op : Type :=
| OpOpen
| OpClose
| OpQuery (q : string)
| OpCommand (c : string)
| OpPowerOff
| OpPowerOn
| OpQueryPower
| OpQueryVolume
| OpSetVolume (volume_level : Z)
| OpQuerySource
| OpSetSource (source_name : string).

(** A method without a [return] value returns [None]. *)
Definition returns_None (m : M unit) : M (option string) :=
  m ;; ret None.

Definition run (o : Op) : M (option string) :=
  match o with
  | OpOpen => returns_None open
  | OpClose => returns_None close
  | OpQuery q => query q
  | OpCommand c => returns_None (command c)
  | OpPowerOff => returns_None power_off
  | OpPowerOn => returns_None power_on
  | OpQueryPower => returns_None query_power
  | OpQueryVolume => returns_None query_volume
  | OpSetVolume v => returns_None (set_volume v)
  | OpQuerySource => returns_None query_source
  | OpSetSource n => returns_None (set_source n)
  end.

(** The text an operation puts in front of the terminator, when it
    writes at all on an open port. *)
Definition message (o : Op) : option string :=
  match o with
  | OpOpen | OpClose => None
  | OpQuery q => Some (q ++ "?")
  | OpCommand c => Some c
  | OpPowerOff => Some "PWSTANDBY"
  | OpPowerOn => Some "PWON"
  | OpQueryPower => Some "PW?"
  | OpQueryVolume => Some "MV?"
  | OpSetVolume v =>
      if new_volume v >? max_volume then None
      else Some ("MV" ++ str_of_int (new_volume v))
  | OpQuerySource => Some "SI?"
  | OpSetSource n => Some ("SI" ++ n)
  end.

(** The part of the written text that comes from the caller. *)
Definition caller_text (o : Op) : string :=
  match o with
  | OpQuery q => q
  | OpCommand c => c
  | OpSetSource n => n
  | _ => ""
  end.

(** Whether the text the caller passes to [command] or [set_source]
    ends in a carriage return of its own. *)
Definition caller_ends_in_CR (o : Op) : bool :=
  match o with
  | OpCommand c => ends_with_CR c
  | OpSetSource n => ends_with_CR n
  | _ => false
  end.

(** ** Session state, as seen from outside *)

Inductive Session : Type := Closed | Open.

Definition session (r : DenonRemote) : Session :=
  match port r with
  | Some p => if serial.is_open p then Open else Closed
  | None => Closed
  end.

(** Whether the session is open, as a boolean. *)
Definition is_open_session (s : State) : bool :=
  match session (self s) with
  | Open => true
  | Closed => false
  end.

(** The client after a sequence of operations, each started where the
    one before it ended. *)
Fixpoint run_all (os : list Op) (s : State) : State :=
  match os with
  | [] => s
  | o :: os' => run_all os' (final (run o s))
  end.

(** Replacing the connection parameters of a client. *)
Definition with_params (n : string) (b : Z) (s : State) : State :=
  mkState (mkRemote (logger (self s)) n b (port (self s))) (world s).

Definition map_state {A} (f : State -> State) (o : Outcome A) : Outcome A :=
  match o with
  | Returns a s => Returns a (f s)
  | Raises e s => Raises e (f s)
  | Blocks s => Blocks (f s)
  end.

(** What an outcome shows on the transport side: how it ended, the
    port object and the line. *)
Definition transport_view {A} (o : Outcome A)
  : Outcome A * option serial.Serial * World :=
  (map_state (fun _ => mkState (mkRemote (mkLogger DEBUG []) "" 0 None)
                               (mkWorld [] [] ""))
             o,
   port (self (final o)), world (final o)).

(** A computation that leaves [port_name] and [baud_rate] as they
    were, however it ends. *)
Definition keeps_params {A} (m : M A) : Prop :=
  forall s,
    port_name (self (final (m s))) = port_name (self s) /\
    baud_rate (self (final (m s))) = baud_rate (self s).

(** A computation whose run does not depend on the connection
    parameters. *)
Definition param_blind {A} (m : M A) : Prop :=
  forall n b s, m (with_params n b s) = map_state (with_params n b) (m s).

(** ** run_remote.py: the command-line runner

    [argparse] turns the command line into a namespace; the runner is
    modelled from that namespace on.  The sub-command decides which
    attribute the namespace carries besides [port], [query] and
    [verbosity], and which function [func] is. *)

Inductive Subcommand : Type :=
| Volume (lvl : option Z)      (* [volume [-l LEVEL]]: [args.level], [None] when absent *)
| Power (power : string)       (* [power [P]]: [args.power] *)
| Source (source : string).    (* [source [S]]: [args.source] *)

Record Args : Type := mkArgs {
  args_port : string;
  args_query : bool;
  args_verbosity : Level;
  args_sub : Subcommand
}.

Definition volume_command (q : bool) (lvl : option Z) : M unit :=
  if q then query_volume
  else match lvl with
       | Some l => set_volume l
       | None => ret tt
       end.

Definition power_command (q : bool) (power : string) : M unit :=
  if q then query_power
  else if String.eqb power "ON" then power_on
  else if String.eqb power "OFF" then power_off
  else ret tt.

Definition source_command (q : bool) (source : string) : M unit :=
  if q then query_source
  else set_source source.

(** [args.func(remote, args)] *)
Definition func (args : Args) : M unit :=
  match args_sub args with
  | Volume lvl => volume_command (args_query args) lvl
  | Power power => power_command (args_query args) power
  | Source source => source_command (args_query args) source
  end.

(** [main], once the arguments are parsed: construct, open, dispatch,
    close.  An exception ends the run where it is raised. *)
Definition main (args : Args) (w : World) : Outcome unit :=
  (open ;; func args ;; close)
    (mkState (init (args_port args) (Some (args_verbosity args)) None) w).

(** The text a sub-command sends when the query flag is off, if it
    sends any. *)
Definition command_text (sub : Subcommand) : option string :=
  match sub with
  | Volume (Some l) =>
      if new_volume l >? max_volume then None
      else Some ("MV" ++ str_of_int (new_volume l))
  | Volume None => None
  | Power power =>
      if String.eqb power "ON" then Some "PWON"
      else if String.eqb power "OFF" then Some "PWSTANDBY"
      else None
  | Source source => Some ("SI" ++ source)
  end.

(** The code a sub-command asks about when the query flag is on, and
    the label its reply is logged under. *)
Definition status_code (sub : Subcommand) : string :=
  match sub with
  | Volume _ => "MV"
  | Power _ => "PW"
  | Source _ => "SI"
  end.

Definition status_label (sub : Subcommand) : string :=
  match sub with
  | Volume _ => "volume: "
  | Power _ => "power: "
  | Source _ => "source: "
  end.

(** Whether a serial device of that name can be opened. *)
Definition available (name : string) (w : World) : bool :=
  match serial.device name w with
  | Some _ => true
  | None => false
  end.

(** Whether the platform can set the device of that name to a baud
    rate. *)
Definition rate_settable (name : string) (b : Z) (w : World) : bool :=
  match serial.device name w with
  | Some d => serial.settable b d
  | None => false
  end.

(** The records an outcome added to those of the state it started
    from, given their number before. *)
Definition new_records (before : State) (after : State) : list (Level * string) :=
  skipn (List.length (records (logger (self before))))
        (records (logger (self after))).

(** A computation that leaves an observation of the state as it
    was, however it ends. *)
Definition preserves {A X} (f : State -> X) (m : M A) : Prop :=
  forall s, f (final (m s)) = f s.

(** Three observations: the port object, the bytes still to come,
    the threshold of the logger. *)
Definition the_port (s : State) : option serial.Serial := port (self s).
Definition the_rx (s : State) : string := rx (world s).
Definition the_level (s : State) : Level := level (logger (self s)).

(** The levels the client logs at. *)
Definition client_level (l : Level) : bool :=
  match l with
  | DEBUG | INFO | ERROR => true
  | WARNING | CRITICAL => false
  end.

(** A computation that only adds records to the log, all of them at
    levels the client logs at. *)
Definition log_grows {A} (m : M A) : Prop :=
  forall s,
    exists new,
      records (logger (self (final (m s)))) =
        (records (logger (self s)) ++ new)%list /\
      forallb (fun r => client_level (fst r)) new = true.


(** The operations that manage the connection. *)
Definition is_lifecycle (o : Op) : bool :=
  match o with
  | OpOpen | OpClose => true
  | _ => false
  end.

(** ** A concrete run, used to exercise the statements below *)

(** A line with one serial device and a receiver that stays silent. *)
Definition silent_line : World := mkWorld [("COM4", [])] [] "".

(** [DenonRemote('COM4')] *)
Definition fresh : State := mkState (init "COM4" None None) silent_line.

(** ... after [open()] *)
Definition opened : State := final (open fresh).

(** ... after [open()] and [close()] *)
Definition closed_again : State := final (close opened).

(** An open client whose receiver is about to send [reply]. *)
Definition opened_with (reply : string) : State :=
  mkState (self opened) (mkWorld [("COM4", [])] [] reply).

(** [n] copies of one byte. *)
Fixpoint repeat_byte (c : ascii) (n : nat) : string :=
  match n with
  | O => ""
  | S k => String c (repeat_byte c k)
  end.

(** * Properties *)

(** ** Strings *)

Lemma append_assoc (a b c : string) : (a ++ b) ++ c = a ++ (b ++ c).
Proof.
  induction a as [|x a IH]; simpl; [reflexivity | now rewrite IH].
Qed.

Lemma length_append (a b : string) :
  String.length (a ++ b) = (String.length a + String.length b)%nat.
Proof.
  induction a as [|x a IH]; simpl; [reflexivity | now rewrite IH].
Qed.

Lemma count_byte_append (c : ascii) (a b : string) :
  count_byte c (a ++ b) = (count_byte c a + count_byte c b)%nat.
Proof.
  induction a as [|x a IH]; simpl; [reflexivity | rewrite IH; lia].
Qed.

Lemma last_byte_snoc (a : string) (c : ascii) :
  last_byte (a ++ String c "") = Some c.
Proof.
  induction a as [|x a IH]; [reflexivity|].
  simpl. rewrite IH. destruct (a ++ String c "") eqn:E; [|reflexivity].
  destruct a; discriminate.
Qed.

(** ** Basic facts *)

Lemma session_Open_inv (r : DenonRemote) :
  session r = Open ->
  exists p, port r = Some p /\ serial.is_open p = true.
Proof.
  unfold session. destruct (port r) as [p|]; [|discriminate].
  destruct (serial.is_open p) eqn:E; [|discriminate].
  intros _. exists p. split; [reflexivity | exact E].
Qed.

(** On an open port [command] is one write of the text and the
    terminator, and nothing else. *)
Lemma command_Open (c : string) (s : State) :
  session (self s) = Open ->
  command c s =
  Returns tt (mkState (self s)
                      (mkWorld (devices (world s))
                               (wire (world s) ++ [Tx (c ++ String CR "")])
                               (rx (world s)))).
Proof.
  intros H. destruct (session_Open_inv _ H) as (p & Hp & Ho).
  unfold command, bind, get_port, port_write, serial.write, serial.isOpen.
  rewrite Hp. rewrite Ho. simpl. rewrite Hp. rewrite Ho. reflexivity.
Qed.

Lemma new_volume_le_max (percent : Z) :
  percent <= 100 -> new_volume percent <= max_volume.
Proof.
  intros H. unfold new_volume, max_volume, min_volume.
  assert (percent * (65 - 25) / 100 <= 40); [|lia].
  apply Z.div_le_upper_bound; lia.
Qed.

Lemma new_volume_ge_min (percent : Z) :
  0 <= percent -> min_volume <= new_volume percent.
Proof.
  intros H. unfold new_volume, max_volume, min_volume.
  assert (0 <= percent * (65 - 25) / 100); [|lia].
  apply Z.div_pos; lia.
Qed.

Lemma new_volume_negative (percent : Z) :
  percent < 0 -> new_volume percent < min_volume.
Proof.
  intros H. unfold new_volume, max_volume, min_volume.
  assert (percent * (65 - 25) / 100 < 0); [|lia].
  apply Z.div_lt_upper_bound; lia.
Qed.

Lemma new_volume_above_max (percent : Z) :
  new_volume percent > max_volume <-> 103 <= percent.
Proof.
  unfold new_volume, max_volume, min_volume. split; intros H.
  - assert (~ percent <= 102); [|lia]. intros Hle.
    assert (percent * (65 - 25) / 100 < 41); [|lia].
    apply Z.div_lt_upper_bound; lia.
  - assert (41 <= percent * (65 - 25) / 100); [|lia].
    apply Z.div_le_lower_bound; lia.
Qed.

(** What [set_volume] does on an open port when the guard lets the
    value through. *)
Lemma set_volume_Open_sends (volume_level : Z) (s : State) :
  session (self s) = Open ->
  new_volume volume_level <= max_volume ->
  exists s',
    set_volume volume_level s = Returns tt s' /\
    wire (world s') =
      (wire (world s)
       ++ [Tx ("MV" ++ str_of_int (new_volume volume_level) ++ String CR "")%string])%list /\
    rx (world s') = rx (world s) /\
    port (self s') = port (self s).
Proof.
  intros Ho Hle. unfold set_volume.
  destruct (new_volume volume_level >? max_volume) eqn:G.
  - apply Z.gtb_lt in G. lia.
  - unfold bind at 1.
    set (m := log INFO _ s).
    assert (Hm : m = Returns tt (final m)) by reflexivity.
    rewrite Hm. rewrite command_Open by exact Ho.
    eexists. split; [reflexivity|]. simpl.
    auto.
Qed.

(** What [set_volume] does, on any client, when the guard fires. *)
Lemma set_volume_rejects (volume_level : Z) (s : State) :
  new_volume volume_level > max_volume ->
  set_volume volume_level s =
  Returns tt
    (mkState
       (set_logger
          (Logger_log ERROR
             ("calculated volume setting above max volume level: "
              ++ str_of_int (new_volume volume_level))
             (logger (self s)))
          (self s))
       (world s)).
Proof.
  intros H. unfold set_volume.
  destruct (new_volume volume_level >? max_volume) eqn:G.
  - reflexivity.
  - rewrite Z.gtb_ltb in G. apply Z.ltb_ge in G. lia.
Qed.

Lemma log_then_command_Open (l : Level) (msg c : string) (s : State) :
  session (self s) = Open ->
  (log l msg ;; command c) s =
  Returns tt
    (mkState (set_logger (Logger_log l msg (logger (self s))) (self s))
             (mkWorld (devices (world s))
                      (wire (world s) ++ [Tx (c ++ String CR "")])
                      (rx (world s)))).
Proof.
  intros Ho. unfold bind, log. cbv beta iota.
  rewrite command_Open by exact Ho. reflexivity.
Qed.

(** ** Volume *)

(** C1: for every percent in [0,100], [set_volume] computes
    [percent*(65-25)/100 + 25] in integer arithmetic (0 gives 25, 50
    gives 45, 100 gives 65), passes the guard, and sends the command
    [MV] followed by that value: on an open session exactly these bytes
    and the terminator go out. *)
Theorem set_volume_percent_mapping (percent : Z) :
  0 <= percent <= 100 ->
  new_volume percent = percent * (65 - 25) / 100 + 25 /\
  min_volume <= new_volume percent <= max_volume /\
  new_volume 0 = 25 /\ new_volume 50 = 45 /\ new_volume 100 = 65 /\
  (forall s,
      set_volume percent s =
      (log INFO ("setting volume to " ++ str_of_int percent ++ "% (MV"
                 ++ str_of_int (percent * (65 - 25) / 100 + 25) ++ ")") ;;
       command ("MV" ++ str_of_int (percent * (65 - 25) / 100 + 25))) s) /\
  (forall s,
      session (self s) = Open ->
      exists s',
        set_volume percent s = Returns tt s' /\
        wire (world s') =
          (wire (world s)
           ++ [Tx ("MV" ++ str_of_int (percent * (65 - 25) / 100 + 25)
                   ++ String CR "")%string])%list).
Proof.
  intros [Hlo Hhi].
  pose proof (new_volume_le_max percent Hhi) as Hmax.
  pose proof (new_volume_ge_min percent Hlo) as Hmin.
  split; [reflexivity|]. split; [lia|].
  repeat (split; [reflexivity|]).
  split.
  - intros s. unfold set_volume.
    destruct (new_volume percent >? max_volume) eqn:G; [|reflexivity].
    apply Z.gtb_lt in G. lia.
  - intros s Ho.
    destruct (set_volume_Open_sends percent s Ho Hmax) as (s' & E & W & _).
    exists s'. split; [exact E | exact W].
Qed.

Lemma set_volume_percent_mapping_witness :
  0 <= 50 <= 100 /\
  session (self opened) = Open /\
  exists s',
    set_volume 50 opened = Returns tt s' /\
    wire (world s') = [Tx ("MV45" ++ String CR "")].
Proof.
  split; [lia|]. split; [reflexivity|].
  destruct (set_volume_percent_mapping 50 ltac:(lia))
    as (_ & _ & _ & _ & _ & _ & H).
  exact (H opened eq_refl).
Defined.

(** C2: whenever the computed device value exceeds 65, [set_volume]
    returns normally, leaves the serial line exactly as it was (nothing
    is written, nothing is read), leaves the port object alone, and
    hands the logger one ERROR record naming the computed value; that
    record reaches the handler at every threshold up to ERROR. *)
Theorem set_volume_above_max_aborts (percent : Z) (s : State) :
  new_volume percent > max_volume ->
  exists s',
    set_volume percent s = Returns tt s' /\
    world s' = world s /\
    port (self s') = port (self s) /\
    records (logger (self s')) =
      (records (logger (self s))
       ++ [(ERROR, ("calculated volume setting above max volume level: "
                    ++ str_of_int (new_volume percent))%string)])%list /\
    (level_no (level (logger (self s))) <= level_no ERROR ->
     In (ERROR, "calculated volume setting above max volume level: "
                ++ str_of_int (new_volume percent))
        (emitted (logger (self s')))).
Proof.
  intros H. eexists. split; [apply set_volume_rejects; exact H|].
  simpl. repeat (split; [reflexivity|]).
  intros Hl. unfold emitted. simpl. apply filter_In. split.
  - apply in_or_app. right. left. reflexivity.
  - simpl. apply Z.leb_le. exact Hl.
Qed.

Lemma set_volume_above_max_aborts_witness :
  new_volume 103 > max_volume /\
  exists s',
    set_volume 103 opened = Returns tt s' /\
    world s' = world opened /\
    port (self s') = port (self opened) /\
    records (logger (self s')) =
      (records (logger (self opened))
       ++ [(ERROR, "calculated volume setting above max volume level: 66")])%list /\
    In (ERROR, "calculated volume setting above max volume level: 66")
       (emitted (logger (self s'))).
Proof.
  split; [reflexivity|].
  destruct (set_volume_above_max_aborts 103 opened eq_refl)
    as (s' & E & W & P & R & Em).
  exists s'. repeat (split; [assumption|]).
  apply Em. simpl. lia.
Defined.

(** C9: [set_volume] has no lower bound.  On an open session every
    percent whose device value is at most 65 is transmitted as [MV]
    followed by that value; a negative percent gives a device value
    below 25 and is transmitted all the same; and the line is left
    untouched exactly when the device value exceeds 65.  The call never
    raises. *)
Theorem set_volume_no_lower_bound (percent : Z) (s : State) :
  session (self s) = Open ->
  (new_volume percent <= max_volume ->
   exists s',
     set_volume percent s = Returns tt s' /\
     wire (world s') =
       (wire (world s)
        ++ [Tx ("MV" ++ str_of_int (new_volume percent) ++ String CR "")%string])%list) /\
  (percent < 0 ->
   new_volume percent < min_volume /\
   writes (world (final (set_volume percent s))) =
     (writes (world s)
      ++ [("MV" ++ str_of_int (new_volume percent) ++ String CR "")%string])%list) /\
  (world (final (set_volume percent s)) = world s <->
   new_volume percent > max_volume) /\
  raises (set_volume percent s) = false.
Proof.
  intros Ho.
  assert (Hsend : new_volume percent <= max_volume ->
                  exists s',
                    set_volume percent s = Returns tt s' /\
                    wire (world s') =
                      (wire (world s)
                       ++ [Tx ("MV" ++ str_of_int (new_volume percent)
                               ++ String CR "")%string])%list).
  { intros Hle.
    destruct (set_volume_Open_sends percent s Ho Hle) as (s' & E & W & _).
    exists s'. split; assumption. }
  split; [exact Hsend|]. split; [|split].
  - intros Hneg. pose proof (new_volume_negative percent Hneg) as Hlt.
    split; [exact Hlt|].
    destruct Hsend as (s' & E & W); [unfold min_volume, max_volume in *; lia|].
    rewrite E. simpl. unfold writes. rewrite W.
    rewrite flat_map_app. reflexivity.
  - split.
    + intros Hw. destruct (Z_le_gt_dec (new_volume percent) max_volume) as [Hle|Hgt];
        [|exact Hgt].
      destruct (Hsend Hle) as (s' & E & W). rewrite E in Hw. simpl in Hw.
      rewrite Hw in W. apply (f_equal (@List.length Event)) in W.
      rewrite length_app in W. simpl in W. lia.
    + intros Hgt. rewrite set_volume_rejects by exact Hgt. reflexivity.
  - destruct (Z_le_gt_dec (new_volume percent) max_volume) as [Hle|Hgt].
    + destruct (Hsend Hle) as (s' & E & _). now rewrite E.
    + now rewrite set_volume_rejects.
Qed.

Lemma set_volume_no_lower_bound_witness :
  session (self opened) = Open /\
  new_volume (-100) = -15 /\
  writes (world (final (set_volume (-100) opened))) =
    ["MV-15" ++ String CR ""].
Proof.
  split; [reflexivity|]. split; [reflexivity|].
  destruct (set_volume_no_lower_bound (-100) opened eq_refl) as (_ & H & _).
  destruct H as (_ & W); [lia|]. exact W.
Defined.

(** ** Reading a reply *)

Section ReadUntil.

Variable terminator : ascii.
Variable size : nat.

(** What a completed read has taken: the bytes before the last one
    hold no terminator and stayed under the size, and the last byte
    is the terminator or fills the size. *)
Lemma read_until_loop_Some (incoming line data rest : string) :
  serial.read_until_loop terminator size line incoming = Some (data, rest) ->
  exists body c,
    data = line ++ body ++ String c "" /\
    incoming = body ++ String c rest /\
    count_byte terminator body = 0%nat /\
    (c = terminator \/ (size <= String.length data)%nat) /\
    (body = "" \/ (String.length (line ++ body) < size)%nat).
Proof.
  revert line. induction incoming as [|x incoming IH]; intros line; simpl.
  - discriminate.
  - destruct (Ascii.eqb x terminator) eqn:Ex.
    + intros H. inversion H; subst. apply Ascii.eqb_eq in Ex.
      exists "", x. simpl. repeat split; auto.
    + destruct (size <=? String.length (line ++ String x ""))%nat eqn:El.
      * intros H. inversion H; subst. apply Nat.leb_le in El.
        exists "", x. simpl. repeat split; auto.
      * intros H. apply IH in H.
        destruct H as (body & c & Hd & Hi & Hc & Hlast & Hlen).
        exists (String x body), c. simpl.
        rewrite append_assoc in Hd. simpl in Hd.
        split; [exact Hd|]. split; [now rewrite Hi|].
        split; [now rewrite Ex|]. split; [exact Hlast|].
        right. apply Nat.leb_gt in El. destruct Hlen as [->|Hlen].
        -- exact El.
        -- rewrite append_assoc in Hlen. exact Hlen.
Qed.

(** A read that never returns has seen neither a terminator nor
    enough bytes. *)
Lemma read_until_loop_None (incoming line : string) :
  serial.read_until_loop terminator size line incoming = None ->
  count_byte terminator incoming = 0%nat /\
  (incoming = "" \/ (String.length line + String.length incoming < size)%nat).
Proof.
  revert line. induction incoming as [|x incoming IH]; intros line; simpl.
  - auto.
  - destruct (Ascii.eqb x terminator) eqn:Ex; [discriminate|].
    destruct (size <=? String.length (line ++ String x ""))%nat eqn:El;
      [discriminate|].
    intros H. apply IH in H. destruct H as (Hc & Hl). split; [exact Hc|].
    right. apply Nat.leb_gt in El. rewrite length_append in *. simpl in *.
    destruct Hl as [->|Hl]; simpl; lia.
Qed.

(** Without a terminator in sight the read stops when the line is
    [size] bytes long. *)
Lemma read_until_loop_full (incoming line : string) :
  count_byte terminator incoming = 0%nat ->
  (String.length line < size)%nat ->
  (size <= String.length line + String.length incoming)%nat ->
  exists got rest,
    incoming = got ++ rest /\
    String.length (line ++ got) = size /\
    serial.read_until_loop terminator size line incoming
    = Some (line ++ got, rest).
Proof.
  revert line. induction incoming as [|x incoming IH]; intros line; simpl.
  - intros _ H1 H2. lia.
  - destruct (Ascii.eqb x terminator) eqn:Ex; [discriminate|].
    simpl. intros Hc H1 H2.
    destruct (size <=? String.length (line ++ String x ""))%nat eqn:El.
    + apply Nat.leb_le in El. exists (String x ""), incoming.
      split; [reflexivity|]. split; [|reflexivity].
      rewrite length_append in *. simpl in *. lia.
    + apply Nat.leb_gt in El.
      destruct (IH (line ++ String x "") Hc El) as (got & rest & Hi & Hl & Hr).
      { rewrite length_append. simpl. lia. }
      exists (String x got), rest.
      rewrite append_assoc in Hl, Hr. simpl in Hl, Hr.
      split; [now rewrite Hi|]. split; [exact Hl | exact Hr].
Qed.

End ReadUntil.

(** On an open port [query] is the write of the question followed by
    one [read_until]; its result is what [read_until] hands back,
    unchanged. *)
Lemma query_Open (q : string) (s : State) :
  session (self s) = Open ->
  query q s =
  match serial.read_until_loop CR 135 "" (rx (world s)) with
  | Some (data, rest) =>
      Returns (Some data)
        (mkState (self s)
           (mkWorld (devices (world s))
                    (wire (world s) ++ [Tx (q ++ "?" ++ String CR ""); Rx data])
                    rest))
  | None =>
      Blocks
        (mkState (self s)
           (mkWorld (devices (world s))
                    (wire (world s) ++ [Tx (q ++ "?" ++ String CR "")])
                    (rx (world s))))
  end.
Proof.
  intros H. destruct (session_Open_inv _ H) as (p & Hp & Ho).
  unfold query, bind, get_port, port_write, port_read_until,
    serial.write, serial.read_until, serial.isOpen.
  rewrite Hp. rewrite Ho. simpl. rewrite Hp. rewrite Ho. simpl.
  rewrite Hp. rewrite Ho.
  destruct (serial.read_until_loop CR 135 "" (rx (world s))) as [[data rest]|].
  - simpl. rewrite <- app_assoc. reflexivity.
  - reflexivity.
Qed.

(** C3: on an open session [query code] never raises; its first
    transfer on the line is the write of exactly [code], ["?"] and one
    carriage return, and a read follows only after it; when the call
    returns, the reply is a prefix of the incoming bytes of at most 135
    bytes whose last byte is the first carriage return of the stream or
    else the 135th byte; and the call does return once a carriage
    return or 135 bytes are on their way. *)
Theorem query_writes_then_reads (code : string) (s : State) :
  session (self s) = Open ->
  raises (query code s) = false /\
  (exists tail,
      wire (world (final (query code s))) =
        (wire (world s) ++ Tx (code ++ "?" ++ String CR "") :: tail)%list /\
      (tail = [] \/ exists resp, tail = [Rx resp])) /\
  writes (world (final (query code s))) =
    (writes (world s) ++ [(code ++ "?" ++ String CR "")%string])%list /\
  (forall r s',
      query code s = Returns r s' ->
      exists body c,
        r = Some (body ++ String c "") /\
        wire (world s') =
          (wire (world s)
           ++ [Tx (code ++ "?" ++ String CR ""); Rx (body ++ String c "")])%list /\
        rx (world s) = body ++ String c (rx (world s')) /\
        (String.length (body ++ String c "") <= 135)%nat /\
        count_byte CR body = 0%nat /\
        (c = CR \/ String.length (body ++ String c "") = 135%nat)) /\
  (count_byte CR (rx (world s)) <> 0%nat \/
   (135 <= String.length (rx (world s)))%nat ->
   exists resp s', query code s = Returns (Some resp) s').
Proof.
  intros Ho. rewrite (query_Open code s Ho).
  destruct (serial.read_until_loop CR 135 "" (rx (world s))) as [[data rest]|] eqn:E.
  - split; [reflexivity|]. split; [|split; [|split]].
    + exists [Rx data]. simpl. split; [reflexivity|]. right. now exists data.
    + unfold writes. simpl. rewrite flat_map_app. reflexivity.
    + intros r s' H. inversion H; subst r s'. clear H. simpl.
      destruct (read_until_loop_Some CR 135 _ _ _ _ E)
        as (body & c & Hd & Hi & Hc & Hlast & Hlen).
      simpl in Hd. subst data. exists body, c.
      split; [reflexivity|]. split; [reflexivity|]. split; [exact Hi|].
      assert (Hb : (String.length body < 135)%nat).
      { destruct Hlen as [->|Hlen]; simpl in *; lia. }
      rewrite length_append in *. simpl in *.
      split; [lia|]. split; [exact Hc|].
      destruct Hlast as [->|Hs]; [now left | right; lia].
    + intros _. now exists data, (mkState (self s)
        (mkWorld (devices (world s))
           (wire (world s) ++ [Tx (code ++ "?" ++ String CR ""); Rx data]) rest)).
  - split; [reflexivity|]. split; [|split; [|split]].
    + exists []. simpl. auto.
    + unfold writes. simpl. now rewrite flat_map_app.
    + intros r s' H. discriminate.
    + intros H. apply read_until_loop_None in E. destruct E as (Ec & El).
      destruct H as [H|H]; [contradiction|].
      destruct El as [El|El]; [rewrite El in H; simpl in H; lia | simpl in El; lia].
Qed.

Lemma query_writes_then_reads_witness :
  session (self (opened_with ("MV45" ++ String CR "MVMAX 80"))) = Open /\
  exists s',
    query "MV" (opened_with ("MV45" ++ String CR "MVMAX 80"))
    = Returns (Some ("MV45" ++ String CR "")) s' /\
    wire (world s') = [Tx ("MV?" ++ String CR ""); Rx ("MV45" ++ String CR "")] /\
    rx (world s') = "MVMAX 80".
Proof.
  split; [reflexivity|].
  pose proof (query_writes_then_reads "MV"
                (opened_with ("MV45" ++ String CR "MVMAX 80")) eq_refl) as H.
  destruct H as (_ & _ & _ & _ & H).
  destruct H as (resp & s' & E); [left; vm_compute; discriminate|].
  exists s'. vm_compute in E. inversion E; subst. vm_compute. auto.
Defined.

(** C7: with 200 unterminated bytes on their way, [query] returns
    normally and its result is exactly the first 135 of them; the other
    65 stay on the line. *)
Theorem query_truncates_long_reply (code : string) (s : State) :
  session (self s) = Open ->
  String.length (rx (world s)) = 200%nat ->
  count_byte CR (rx (world s)) = 0%nat ->
  exists resp rest s',
    query code s = Returns (Some resp) s' /\
    rx (world s) = resp ++ rest /\
    String.length resp = 135%nat /\
    String.length rest = 65%nat /\
    rx (world s') = rest /\
    wire (world s') =
      (wire (world s) ++ [Tx (code ++ "?" ++ String CR ""); Rx resp])%list.
Proof.
  intros Ho Hlen Hc. rewrite (query_Open code s Ho).
  destruct (read_until_loop_full CR 135 (rx (world s)) "" Hc)
    as (got & rest & Hi & Hl & Hr).
  { simpl. lia. }
  { simpl. lia. }
  simpl in Hl, Hr. rewrite Hr.
  exists got, rest. eexists. split; [reflexivity|]. simpl.
  split; [exact Hi|]. split; [exact Hl|].
  split; [|split; reflexivity].
  rewrite Hi, length_append in Hlen. lia.
Qed.

Lemma query_truncates_long_reply_witness :
  session (self (opened_with (repeat_byte "A" 200))) = Open /\
  String.length (repeat_byte "A" 200) = 200%nat /\
  count_byte CR (repeat_byte "A" 200) = 0%nat /\
  exists s',
    query "PW" (opened_with (repeat_byte "A" 200))
    = Returns (Some (repeat_byte "A" 135)) s' /\
    rx (world s') = repeat_byte "A" 65.
Proof.
  split; [reflexivity|]. split; [reflexivity|]. split; [reflexivity|].
  destruct (query_truncates_long_reply "PW" (opened_with (repeat_byte "A" 200))
              eq_refl eq_refl eq_refl)
    as (resp & rest & s' & E & _).
  exists s'. vm_compute in E. inversion E; subst. vm_compute. auto.
Defined.

(** ** Fixed commands *)

(** C5: on an open session [set_source("TUNER")] transmits exactly
    the bytes [SITUNER] and one carriage return, and [power_off()]
    exactly [PWSTANDBY] and one carriage return; nothing is read.  For
    every source name the bytes are [SI], the name as given, and one
    carriage return. *)
Theorem set_source_power_off_bytes (s : State) :
  session (self s) = Open ->
  (exists s',
      set_source "TUNER" s = Returns tt s' /\
      wire (world s') = (wire (world s) ++ [Tx ("SITUNER" ++ String CR "")])%list) /\
  (exists s',
      power_off s = Returns tt s' /\
      wire (world s') = (wire (world s) ++ [Tx ("PWSTANDBY" ++ String CR "")])%list) /\
  (forall source_name, exists s',
      set_source source_name s = Returns tt s' /\
      wire (world s') =
        (wire (world s) ++ [Tx ("SI" ++ source_name ++ String CR "")])%list).
Proof.
  intros Ho. unfold set_source, power_off.
  split; [|split; [|intros source_name]];
    rewrite log_then_command_Open by exact Ho;
    eexists; (split; [reflexivity|]); reflexivity.
Qed.

Lemma set_source_power_off_bytes_witness :
  session (self opened) = Open /\
  (exists s',
      set_source "TUNER" opened = Returns tt s' /\
      wire (world s') = [Tx ("SITUNER" ++ String CR "")]) /\
  (exists s',
      power_off opened = Returns tt s' /\
      wire (world s') = [Tx ("PWSTANDBY" ++ String CR "")]).
Proof.
  split; [reflexivity|].
  destruct (set_source_power_off_bytes opened eq_refl) as (H1 & H2 & _).
  split; [exact H1 | exact H2].
Defined.

(** ** Replies *)

(** C6 (counterexample): with [PWON] and a carriage return on their
    way, the reply that [query("PW")] returns on the concrete open
    client is [PWON] followed by the carriage return, and is not the
    bare [PWON]. *)
Lemma query_power_reply_not_stripped :
  session (self (opened_with ("PWON" ++ String CR ""))) = Open /\
  (exists s',
      query "PW" (opened_with ("PWON" ++ String CR ""))
      = Returns (Some ("PWON" ++ String CR "")) s') /\
  ~ (exists s',
        query "PW" (opened_with ("PWON" ++ String CR ""))
        = Returns (Some "PWON") s').
Proof.
  split; [reflexivity|]. split.
  - eexists. vm_compute. reflexivity.
  - intros (s' & E). vm_compute in E. discriminate.
Qed.

(** C6 (as the code has it): when [query_power()] runs on an open
    session and the line delivers [PWON] and a carriage return, the
    reply obtained by the query is [PWON] with the carriage return
    still attached, as [read_until] hands it back; the call logs, at
    INFO, ["power: "] followed by that reply, byte for byte. *)
Theorem query_power_logs_raw_reply (s : State) (more : string) :
  session (self s) = Open ->
  rx (world s) = "PWON" ++ String CR more ->
  (exists s',
      query "PW" s = Returns (Some ("PWON" ++ String CR "")) s' /\
      rx (world s') = more) /\
  (exists s',
      query_power s = Returns tt s' /\
      wire (world s') =
        (wire (world s)
         ++ [Tx ("PW?" ++ String CR ""); Rx ("PWON" ++ String CR "")])%list /\
      records (logger (self s')) =
        (records (logger (self s))
         ++ [(INFO, "querying power status");
             (INFO, ("power: " ++ ("PWON" ++ String CR ""))%string)])%list).
Proof.
  intros Ho Hrx. split.
  - rewrite (query_Open "PW" s Ho). rewrite Hrx. simpl.
    eexists. split; reflexivity.
  - unfold query_power, bind, log. cbv beta iota.
    rewrite query_Open by exact Ho. simpl. rewrite Hrx. simpl.
    eexists. split; [reflexivity|]. simpl. split; [reflexivity|].
    rewrite <- app_assoc. reflexivity.
Qed.

Lemma query_power_logs_raw_reply_witness :
  session (self (opened_with ("PWON" ++ String CR ""))) = Open /\
  exists s',
    query_power (opened_with ("PWON" ++ String CR "")) = Returns tt s' /\
    In (INFO, ("power: " ++ ("PWON" ++ String CR ""))%string)
       (records (logger (self s'))).
Proof.
  split; [reflexivity|].
  destruct (query_power_logs_raw_reply (opened_with ("PWON" ++ String CR "")) ""
              eq_refl eq_refl) as (_ & s' & E & _ & R).
  exists s'. split; [exact E|]. rewrite R. apply in_or_app. right.
  right. left. reflexivity.
Defined.

(** ** Operating on a session that is not open *)

(** C4 (the failing case): a client that was constructed and never
    opened is in the Closed state, and there both [command] and [query]
    raise [AttributeError] for the missing [port] attribute: the guard
    is not reached, nothing is logged. *)
Theorem closed_before_open_raises
        (name : string) (log_level : option Level) (baud : option Z)
        (w : World) (code : string) :
  session (init name log_level baud) = Closed /\
  command code (mkState (init name log_level baud) w)
  = Raises (AttributeError "port") (mkState (init name log_level baud) w) /\
  query code (mkState (init name log_level baud) w)
  = Raises (AttributeError "port") (mkState (init name log_level baud) w).
Proof.
  repeat split.
Qed.

(** Once the [port] attribute exists and the port is closed (after
    [close], or after an [open] that failed), [command] and [query] are
    guarded: no transfer on the line, one ERROR record, a normal return,
    [query] returning [None]. *)
Lemma closed_port_guarded (code : string) (s : State) (p : serial.Serial) :
  port (self s) = Some p ->
  serial.is_open p = false ->
  command code s =
    Returns tt (mkState (set_logger (Logger_log ERROR not_open_msg (logger (self s)))
                                    (self s))
                        (world s)) /\
  query code s =
    Returns None (mkState (set_logger (Logger_log ERROR not_open_msg (logger (self s)))
                                      (self s))
                          (world s)).
Proof.
  intros Hp Hc. unfold command, query, bind, get_port, serial.isOpen.
  rewrite Hp, Hc. split; reflexivity.
Qed.

(** Calling twice in that state leaves the line and the port as one
    call does. *)
Lemma closed_port_twice (code : string) (s : State) (p : serial.Serial) :
  port (self s) = Some p ->
  serial.is_open p = false ->
  world (final (command code (final (command code s)))) = world s /\
  world (final (query code (final (query code s)))) = world s /\
  port (self (final (command code (final (command code s))))) = port (self s) /\
  port (self (final (query code (final (query code s))))) = port (self s).
Proof.
  intros Hp Hc.
  destruct (closed_port_guarded code s p Hp Hc) as (E1 & E2).
  rewrite E1, E2. simpl.
  destruct (closed_port_guarded code
              (mkState (set_logger (Logger_log ERROR not_open_msg (logger (self s)))
                                   (self s)) (world s)) p Hp Hc) as (E3 & E4).
  rewrite E3, E4. simpl. auto.
Qed.

Example closed_again_command :
  exists s', command "PWON" closed_again = Returns tt s' /\
             world s' = world closed_again.
Proof. eexists. split; reflexivity. Qed.

(** ** Connection parameters *)

Lemma keeps_ret {A} (a : A) : keeps_params (ret a).
Proof. intros s. split; reflexivity. Qed.

Lemma keeps_bind {A B} (m : M A) (k : A -> M B) :
  keeps_params m -> (forall a, keeps_params (k a)) -> keeps_params (bind m k).
Proof.
  intros Hm Hk s. unfold bind. specialize (Hm s).
  destruct (m s) as [a s1|e s1|s1]; simpl in *; [|exact Hm|exact Hm].
  destruct (Hk a s1) as (H1 & H2). destruct Hm as (H3 & H4).
  split; congruence.
Qed.

Lemma keeps_log (l : Level) (msg : string) : keeps_params (log l msg).
Proof. intros s. split; reflexivity. Qed.

Lemma keeps_get_port : keeps_params get_port.
Proof. intros s. unfold get_port. destruct (port (self s)); split; reflexivity. Qed.

Lemma keeps_put_port (p : serial.Serial) : keeps_params (put_port p).
Proof. intros s. split; reflexivity. Qed.

Lemma keeps_get_port_name : keeps_params get_port_name.
Proof. intros s. split; reflexivity. Qed.

Lemma keeps_get_baud_rate : keeps_params get_baud_rate.
Proof. intros s. split; reflexivity. Qed.

Lemma keeps_port_set_baudrate (b : Z) : keeps_params (port_set_baudrate b).
Proof.
  intros s. unfold port_set_baudrate.
  destruct (port (self s)) as [p|]; [|split; reflexivity].
  destruct (serial.set_baudrate b p); split; reflexivity.
Qed.

Lemma keeps_port_open : keeps_params port_open.
Proof.
  intros s. unfold port_open. destruct (port (self s)) as [p|]; [|split; reflexivity].
  destruct (serial.open (world s) p); split; reflexivity.
Qed.

Lemma keeps_port_write (data : string) : keeps_params (port_write data).
Proof.
  intros s. unfold port_write. destruct (port (self s)) as [p|]; [|split; reflexivity].
  destruct (serial.write data p (world s)); split; reflexivity.
Qed.

Lemma keeps_port_read_until (t : ascii) (n : nat) :
  keeps_params (port_read_until t n).
Proof.
  intros s. unfold port_read_until.
  destruct (port (self s)) as [p|]; [|split; reflexivity].
  destruct (serial.read_until t n p (world s)); split; reflexivity.
Qed.

Create HintDb keeps.
#[local] Hint Resolve keeps_ret keeps_log keeps_get_port keeps_put_port
  keeps_get_port_name keeps_get_baud_rate keeps_port_set_baudrate
  keeps_port_open keeps_port_write keeps_port_read_until : keeps.

Ltac keeps :=
  repeat first
    [ apply keeps_bind; [|intros ?]
    | match goal with
      | |- keeps_params (if ?c then _ else _) => destruct c
      end
    | solve [auto with keeps] ].

Lemma keeps_run (o : Op) : keeps_params (run o).
Proof.
  destruct o; unfold run, returns_None, open, close, port_close, port_set_port,
    query, command,
    power_off, power_on, query_power, query_volume, set_volume, query_source,
    set_source; keeps.
Qed.

Lemma blind_ret {A} (a : A) : param_blind (ret a).
Proof. intros n b s. reflexivity. Qed.

Lemma blind_bind {A B} (m : M A) (k : A -> M B) :
  param_blind m -> (forall a, param_blind (k a)) -> param_blind (bind m k).
Proof.
  intros Hm Hk n b s. unfold bind. rewrite Hm.
  destruct (m s) as [a s1|e s1|s1]; simpl; [apply Hk | reflexivity | reflexivity].
Qed.

Lemma blind_log (l : Level) (msg : string) : param_blind (log l msg).
Proof. intros n b s. reflexivity. Qed.

Lemma blind_get_port : param_blind get_port.
Proof.
  intros n b [[lg pn br [p|]] w]; reflexivity.
Qed.

Lemma blind_port_write (data : string) : param_blind (port_write data).
Proof.
  intros n b [[lg pn br [p|]] w]; [|reflexivity].
  unfold port_write, with_params. simpl.
  destruct (serial.write data p w); reflexivity.
Qed.

Lemma blind_port_read_until (t : ascii) (k : nat) :
  param_blind (port_read_until t k).
Proof.
  intros n b [[lg pn br [p|]] w]; [|reflexivity].
  unfold port_read_until, with_params. simpl.
  destruct (serial.read_until t k p w); reflexivity.
Qed.

Create HintDb blind.
#[local] Hint Resolve blind_ret blind_log blind_get_port blind_port_write
  blind_port_read_until : blind.

Ltac blind :=
  repeat first
    [ apply blind_bind; [|intros ?]
    | match goal with
      | |- param_blind (if ?c then _ else _) => destruct c
      end
    | solve [auto with blind] ].

Lemma blind_query (q : string) : param_blind (query q).
Proof. unfold query. blind. Qed.

Lemma blind_command (c : string) : param_blind (command c).
Proof. unfold command. blind. Qed.

#[local] Hint Resolve blind_query blind_command : blind.

Lemma keeps_run_all (os : list Op) (s : State) :
  port_name (self (run_all os s)) = port_name (self s) /\
  baud_rate (self (run_all os s)) = baud_rate (self s).
Proof.
  revert s. induction os as [|o os IH]; intros s; simpl; [auto|].
  destruct (IH (final (run o s))) as (H1 & H2).
  destruct (keeps_run o s) as (H3 & H4). split; congruence.
Qed.

(** [open] never touches the line, however it ends. *)
Lemma open_world (s : State) : world (final (open s)) = world s.
Proof.
  unfold open, port_set_port, bind, get_port_name, log, put_port, get_baud_rate,
    get_port, port_set_baudrate, port_open, serial.open, serial.set_baudrate.
  simpl. destruct (baud_rate (self s) <? 0); simpl; [reflexivity|].
  destruct (serial.device (port_name (self s)) (world s)) as [d|]; [|reflexivity].
  destruct (serial.settable (baud_rate (self s)) d); reflexivity.
Qed.

(** A successful [open] leaves an open port object that carries the
    client's baud rate and port name. *)
Lemma open_Returns (s : State) (u : unit) (s' : State) :
  open s = Returns u s' ->
  port (self s') =
    Some (serial.mkSerial true (baud_rate (self s)) (Some (port_name (self s)))).
Proof.
  unfold open, port_set_port, bind, get_port_name, log, put_port, get_baud_rate,
    get_port, port_set_baudrate, port_open, serial.open, serial.set_baudrate.
  simpl. destruct (baud_rate (self s) <? 0); simpl; [discriminate|].
  destruct (serial.device (port_name (self s)) (world s)) as [d|]; [|discriminate].
  destruct (serial.settable (baud_rate (self s)) d); [|discriminate].
  intros H. inversion H. reflexivity.
Qed.

Lemma skipn_length_app {A} (l new : list A) :
  skipn (List.length l) (l ++ new) = new.
Proof.
  induction l as [|x l IH]; simpl; [reflexivity | exact IH].
Qed.

(** [close] once the [port] attribute exists. *)
Lemma close_with_port (s : State) (p : serial.Serial) :
  port (self s) = Some p ->
  close s =
  Returns tt
    (mkState
       (mkRemote (Logger_log DEBUG ("closing " ++ port_name (self s))
                             (logger (self s)))
                 (port_name (self s)) (baud_rate (self s))
                 (Some (serial.close p)))
       (world s)).
Proof.
  intros Hp. unfold close, port_close, bind, get_port_name, log, get_port, put_port.
  simpl. rewrite Hp. reflexivity.
Qed.

(** What [open] leaves in [self.port] once the baud rate has passed
    the setter, however it ends: a port object that carries the
    client's baud rate and port name, open exactly when the device
    exists and can be set to that rate. *)
Lemma open_port_object (s : State) :
  0 <= baud_rate (self s) ->
  port (self (final (open s))) =
    Some (serial.mkSerial
            (rate_settable (port_name (self s)) (baud_rate (self s)) (world s))
            (baud_rate (self s))
            (Some (port_name (self s)))) /\
  new_records s (final (open s)) =
    [(DEBUG, ("opening " ++ port_name (self s))%string)].
Proof.
  intros Hb.
  unfold open, port_set_port, bind, get_port_name, log, put_port, get_baud_rate,
    get_port, port_set_baudrate, port_open, serial.open, serial.set_baudrate,
    rate_settable, new_records.
  simpl. destruct (baud_rate (self s) <? 0) eqn:Eb; [apply Z.ltb_lt in Eb; lia|].
  simpl.
  destruct (serial.device (port_name (self s)) (world s)) as [d|]; simpl.
  - destruct (serial.settable (baud_rate (self s)) d); simpl;
      (split; [reflexivity | apply skipn_length_app]).
  - split; [reflexivity | apply skipn_length_app].
Qed.

(** C8 (counterexample): [close] reads the transport identifier.  On
    the opened client and on the client that differs from it in
    nothing but [port_name], [close] hands the logger different
    records, so its run is not the same for every value of the
    parameters. *)
Lemma close_reads_port_name :
  new_records opened (final (close opened)) = [(DEBUG, "closing COM4")] /\
  new_records (with_params "COM5" 9600 opened)
              (final (close (with_params "COM5" 9600 opened)))
  = [(DEBUG, "closing COM5")] /\
  run OpClose (with_params "COM5" 9600 opened)
  <> map_state (with_params "COM5" 9600) (run OpClose opened).
Proof.
  split; [reflexivity|]. split; [reflexivity|].
  intros H. vm_compute in H. discriminate.
Qed.

(** C8 (as the code has it): the transport identifier and the baud
    rate are set by the constructor, the baud rate being 9600 when
    none is given; no operation, and no sequence of operations,
    changes them; [open] consumes both: it logs the identifier and
    leaves a port object configured with exactly these two values;
    [close] reads the identifier as well, for its debug record only:
    the way it ends, the port object and the line are the same
    whatever the parameters are, and it does not read the baud rate;
    every other operation runs the same whatever the parameters are. *)
Theorem connection_parameters_immutable :
  (forall name log_level, baud_rate (init name log_level None) = 9600) /\
  (forall name log_level baud,
      port_name (init name log_level baud) = name) /\
  (forall name log_level b,
      baud_rate (init name log_level (Some b)) = b) /\
  (forall o s,
      port_name (self (final (run o s))) = port_name (self s) /\
      baud_rate (self (final (run o s))) = baud_rate (self s)) /\
  (forall os s,
      port_name (self (run_all os s)) = port_name (self s) /\
      baud_rate (self (run_all os s)) = baud_rate (self s)) /\
  (forall s,
      0 <= baud_rate (self s) ->
      port (self (final (open s))) =
        Some (serial.mkSerial
                (rate_settable (port_name (self s)) (baud_rate (self s)) (world s))
                (baud_rate (self s))
                (Some (port_name (self s)))) /\
      new_records s (final (open s)) =
        [(DEBUG, ("opening " ++ port_name (self s))%string)]) /\
  (forall s,
      port (self s) <> None ->
      new_records s (final (close s)) =
        [(DEBUG, ("closing " ++ port_name (self s))%string)]) /\
  (forall n b s,
      transport_view (run OpClose (with_params n b s))
      = transport_view (run OpClose s)) /\
  (forall b s,
      run OpClose (with_params (port_name (self s)) b s)
      = map_state (with_params (port_name (self s)) b) (run OpClose s)) /\
  (forall o n b s,
      is_lifecycle o = false ->
      run o (with_params n b s) = map_state (with_params n b) (run o s)).
Proof.
  split; [reflexivity|]. split; [reflexivity|]. split; [reflexivity|].
  split; [exact keeps_run|]. split; [exact keeps_run_all|].
  split; [exact open_port_object|]. split; [|split; [|split]].
  - intros s Hp. destruct (port (self s)) as [p|] eqn:E; [|contradiction].
    rewrite (close_with_port s p E). unfold new_records. simpl.
    apply skipn_length_app.
  - intros n b s.
    unfold run, returns_None, close, port_close, bind, get_port_name, log,
      get_port, put_port, transport_view.
    destruct s as [[lg pn br [p|]] w]; reflexivity.
  - intros b s.
    unfold run, returns_None, close, port_close, bind, get_port_name, log,
      get_port, put_port.
    destruct s as [[lg pn br [p|]] w]; reflexivity.
  - intros o n b s Hl. revert n b s. change (param_blind (run o)).
    destruct o; try discriminate;
      unfold run, returns_None, power_off, power_on, query_power,
        query_volume, set_volume, query_source, set_source;
      blind.
Qed.

Lemma connection_parameters_immutable_witness :
  0 <= baud_rate (self fresh) /\
  port (self (final (open fresh))) =
    Some (serial.mkSerial true 9600 (Some "COM4")) /\
  new_records opened (final (close opened)) = [(DEBUG, "closing COM4")] /\
  run OpPowerOn (with_params "COM5" 19200 opened)
  = map_state (with_params "COM5" 19200) (run OpPowerOn opened).
Proof.
  destruct connection_parameters_immutable
    as (_ & _ & _ & _ & _ & Hopen & Hclose & _ & _ & Hblind).
  split; [simpl; lia|].
  destruct (Hopen fresh ltac:(simpl; lia)) as (Hp & _).
  split; [exact Hp|].
  split; [apply Hclose; discriminate|].
  apply Hblind. reflexivity.
Defined.

(** ** Framing of everything that is written *)

Lemma string_of_uint_no_CR (d : Decimal.uint) :
  count_byte CR (NilEmpty.string_of_uint d) = 0%nat.
Proof.
  induction d; simpl; auto.
Qed.

(** The decimal text of an integer holds no carriage return. *)
Lemma str_of_int_no_CR (n : Z) : count_byte CR (str_of_int n) = 0%nat.
Proof.
  unfold str_of_int, NilZero.string_of_int, NilZero.string_of_uint.
  destruct (Z.to_int n) as [d|d]; destruct d; simpl;
    auto using string_of_uint_no_CR.
Qed.

(** The carriage returns in the text of an operation are those of the
    text the caller supplied. *)
Lemma message_CR_count (o : Op) (text : string) :
  message o = Some text ->
  count_byte CR text = count_byte CR (caller_text o).
Proof.
  destruct o; simpl; try discriminate;
    try (intros H; inversion H; subst; reflexivity).
  - intros H. inversion H; subst. rewrite count_byte_append. simpl. lia.
  - destruct (new_volume volume_level >? max_volume); [discriminate|].
    intros H. inversion H; subst. simpl. apply str_of_int_no_CR.
Qed.

(** The writes of one operation, exactly: on an open session the text
    of the operation followed by the terminator, once; otherwise
    nothing. *)
Lemma run_writes (o : Op) (s : State) :
  writes (world (final (run o s))) =
  (writes (world s)
   ++ match message o with
      | Some text =>
          if is_open_session s then [(text ++ String CR "")%string] else []
      | None => []
      end)%list.
Proof.
  assert (Hopen : forall s0, world (final (run OpOpen s0)) = world s0).
  { intros s0. pose proof (open_world s0) as W.
    unfold run, returns_None, bind.
    destruct (open s0) as [u s1|e s1|s1]; exact W. }
  destruct (session (self s)) eqn:Hs.
  - (* not open: the attribute is missing or the port is closed *)
    assert (Hn : is_open_session s = false) by (unfold is_open_session; now rewrite Hs).
    rewrite Hn.
    assert (E : forall l : list string,
               (l ++ match message o with Some _ => [] | None => [] end)%list = l).
    { intros l. destruct (message o); apply app_nil_r. }
    rewrite E. clear E Hn.
    destruct s as [[lg pn br [p|]] w].
    + destruct p as [op bd pt]. unfold session in Hs. simpl in Hs.
      destruct op; [discriminate|]. clear Hs.
      destruct o; try reflexivity.
      * now rewrite Hopen.
      * unfold run, returns_None, set_volume.
        destruct (new_volume volume_level >? max_volume); reflexivity.
    + destruct o; try reflexivity.
      * now rewrite Hopen.
      * unfold run, returns_None, set_volume.
        destruct (new_volume volume_level >? max_volume); reflexivity.
  - assert (Hn : is_open_session s = true) by (unfold is_open_session; now rewrite Hs).
    rewrite Hn. clear Hn.
    assert (Hq : forall q s0, session (self s0) = Open ->
               writes (world (final (query q s0))) =
               (writes (world s0) ++ [(q ++ "?" ++ String CR "")%string])%list).
    { intros q s0 H0. rewrite (query_Open q s0 H0).
      destruct (serial.read_until_loop CR 135 "" (rx (world s0))) as [[data rest]|];
        unfold writes; simpl; rewrite flat_map_app; reflexivity. }
    assert (Hlq : forall l m q (k : option string -> M unit),
               (forall r s0, world (final (k r s0)) = world s0) ->
               writes (world (final (((log l m ;; r <- query q ;; k r)
                                      ;; ret (@None string)) s))) =
               (writes (world s) ++ [(q ++ "?" ++ String CR "")%string])%list).
    { intros l m q k Hk. unfold bind, log. cbv beta iota.
      set (s1 := mkState _ (world s)).
      assert (H1 : session (self s1) = Open) by exact Hs.
      specialize (Hq q s1 H1).
      destruct (query q s1) as [r s2|e s2|s2]; simpl in *; try exact Hq.
      specialize (Hk r s2). destruct (k r s2) as [u s3|e s3|s3]; simpl in *;
        rewrite Hk; exact Hq. }
    assert (Hlc : forall l m c,
               writes (world (final (((log l m ;; command c)
                                      ;; ret (@None string)) s))) =
               (writes (world s) ++ [(c ++ String CR "")%string])%list).
    { intros l m c. unfold bind at 1. rewrite log_then_command_Open by exact Hs.
      unfold writes. simpl. rewrite flat_map_app. reflexivity. }
    destruct o; simpl message.
    + (* open on an open client: a new port object, no write *)
      rewrite Hopen. now rewrite app_nil_r.
    + destruct (session_Open_inv _ Hs) as (p & Hp & Ho).
      destruct s as [[lg pn br po] w]. simpl in Hp. subst po.
      cbn. now rewrite app_nil_r.
    + cbv beta iota. rewrite append_assoc. exact (Hq q s Hs).
    + unfold run, returns_None, bind. rewrite command_Open by exact Hs.
      unfold writes. simpl. rewrite flat_map_app. reflexivity.
    + apply Hlc.
    + apply Hlc.
    + apply (Hlq INFO _ "PW" (fun r => log INFO ("power: " ++ format_opt r))).
      reflexivity.
    + apply (Hlq INFO _ "MV" (fun r => log INFO ("volume: " ++ format_opt r))).
      reflexivity.
    + unfold run, returns_None, set_volume.
      destruct (new_volume volume_level >? max_volume).
      * cbn. now rewrite app_nil_r.
      * apply Hlc.
    + apply (Hlq INFO _ "SI" (fun r => log INFO ("source: " ++ format_opt r))).
      reflexivity.
    + apply Hlc.
Qed.

(** A string without a carriage return does not end in one. *)
Lemma no_CR_not_last (s : string) :
  count_byte CR s = 0%nat -> ends_with_CR s = false.
Proof.
  unfold ends_with_CR. induction s as [|a r IH]; [reflexivity|].
  simpl. destruct (Ascii.eqb a CR) eqn:Ea; [discriminate|].
  simpl. intros Hc. destruct r as [|b r']; [now rewrite Ea | exact (IH Hc)].
Qed.

(** With one carriage return appended, a text ends in exactly one
    carriage return unless it ended in one before. *)
Lemma ends_in_one_CR_snoc (body : string) :
  ends_in_one_CR (body ++ String CR "") = negb (ends_with_CR body).
Proof.
  unfold ends_with_CR. induction body as [|a body IH]; [reflexivity|].
  destruct body as [|b body'].
  - simpl. rewrite ?Ascii.eqb_refl. now rewrite andb_true_r.
  - change (last_byte (String a (String b body'))) with (last_byte (String b body')).
    rewrite <- IH.
    change ((String a (String b body')) ++ String CR "")
      with (String a (String b (body' ++ String CR ""))).
    change ((String b body') ++ String CR "")
      with (String b (body' ++ String CR "")).
    destruct (body' ++ String CR "") as [|c t] eqn:E;
      [destruct body'; discriminate | reflexivity].
Qed.

(** The text of an operation ends in a carriage return exactly when
    the text the caller passed to [command] or [set_source] does. *)
Lemma message_ends_with_CR (o : Op) (text : string) :
  message o = Some text ->
  ends_with_CR text = caller_ends_in_CR o.
Proof.
  destruct o; simpl; try discriminate;
    try (intros H; inversion H; subst; reflexivity).
  - intros H. inversion H; subst. unfold ends_with_CR.
    now rewrite last_byte_snoc.
  - destruct (new_volume volume_level >? max_volume); [discriminate|].
    intros H. inversion H; subst. apply no_CR_not_last. simpl.
    apply str_of_int_no_CR.
  - intros H. inversion H; subst. unfold ends_with_CR.
    destruct source_name as [|x n']; reflexivity.
Qed.

(** C10 (counterexample): on the opened client [command] with a text
    that ends in a carriage return writes that text and the
    terminator, two carriage returns at the end, not exactly one. *)
Lemma command_with_CR_ends_in_two :
  session (self opened) = Open /\
  writes (world (final (run (OpCommand ("PWON" ++ String CR "")) opened)))
  = [("PWON" ++ String CR (String CR ""))%string] /\
  ends_in_one_CR ("PWON" ++ String CR (String CR "")) = false.
Proof.
  split; [reflexivity|]. split; reflexivity.
Qed.

(** C10 (as the code has it): whatever the operation and whatever the
    state of the client, the operation performs at most one write; the
    bytes of that write are the text of the operation followed by the
    carriage return, appended once: they end in a carriage return and
    hold exactly one more than the text the caller supplied.  They end
    in exactly one carriage return unless the text the caller passed
    to [command] or [set_source] itself ends in one; for [query] and
    for the operations without caller text they always do. *)
Theorem writes_end_in_one_terminator (o : Op) (s : State) :
  exists new,
    writes (world (final (run o s))) = (writes (world s) ++ new)%list /\
    (List.length new <= 1)%nat /\
    forall w,
      In w new ->
      exists text,
        message o = Some text /\
        w = text ++ String CR "" /\
        last_byte w = Some CR /\
        count_byte CR w = S (count_byte CR (caller_text o)) /\
        ends_in_one_CR w = negb (caller_ends_in_CR o).
Proof.
  eexists. split; [apply run_writes|].
  destruct (message o) as [text|] eqn:Hm; [|split; [simpl; lia | intros w []]].
  destruct (is_open_session s); [|split; [simpl; lia | intros w []]].
  split; [simpl; lia|].
  intros w [<-|[]]. exists text. split; [reflexivity|]. split; [reflexivity|].
  split; [apply last_byte_snoc|]. split.
  - rewrite count_byte_append, (message_CR_count o text Hm). simpl.
    rewrite ?Ascii.eqb_refl. lia.
  - rewrite ends_in_one_CR_snoc, (message_ends_with_CR o text Hm). reflexivity.
Qed.

Lemma writes_end_in_one_terminator_witness :
  exists new,
    writes (world (final (run (OpSetSource "TUNER") opened))) = new /\
    new = [("SITUNER" ++ String CR "")%string] /\
    forall w,
      In w new ->
      last_byte w = Some CR /\ count_byte CR w = 1%nat /\
      ends_in_one_CR w = true.
Proof.
  destruct (writes_end_in_one_terminator (OpSetSource "TUNER") opened)
    as (new & E & _ & H).
  exists new. vm_compute in E. split; [vm_compute; exact E|].
  split; [symmetry; exact E|].
  intros w Hw. destruct (H w Hw) as (text & _ & _ & Hl & Hc & He).
  split; [exact Hl|]. split; [exact Hc | exact He].
Defined.


(** * Further properties of the client and of the runner *)

(** ** Opening and closing *)


(** Every device can be set to 9600 baud. *)
Lemma rate_settable_9600 (name : string) (w : World) :
  available name w = true -> rate_settable name 9600 w = true.
Proof.
  unfold available, rate_settable.
  destruct (serial.device name w); [reflexivity | discriminate].
Qed.

(** [open] with a device that can be opened and a baud rate it can be
    set to. *)
Lemma open_available (s : State) :
  0 <= baud_rate (self s) ->
  rate_settable (port_name (self s)) (baud_rate (self s)) (world s) = true ->
  open s =
  Returns tt
    (mkState
       (mkRemote (Logger_log DEBUG ("opening " ++ port_name (self s))
                             (logger (self s)))
                 (port_name (self s)) (baud_rate (self s))
                 (Some (serial.mkSerial true (baud_rate (self s))
                                        (Some (port_name (self s))))))
       (world s)).
Proof.
  intros Hb Ha. unfold rate_settable in Ha.
  unfold open, port_set_port, bind, get_port_name, log, put_port, get_baud_rate,
    get_port, port_set_baudrate, port_open, serial.open, serial.set_baudrate.
  simpl. destruct (baud_rate (self s) <? 0) eqn:Eb; [apply Z.ltb_lt in Eb; lia|].
  simpl. destruct (serial.device (port_name (self s)) (world s)) as [d|];
    [|discriminate].
  rewrite Ha. reflexivity.
Qed.

(** [open] with an acceptable baud rate and no such device. *)
Lemma open_unavailable (s : State) :
  0 <= baud_rate (self s) ->
  available (port_name (self s)) (world s) = false ->
  open s =
  Raises SerialException
    (mkState
       (mkRemote (Logger_log DEBUG ("opening " ++ port_name (self s))
                             (logger (self s)))
                 (port_name (self s)) (baud_rate (self s))
                 (Some (serial.mkSerial false (baud_rate (self s))
                                        (Some (port_name (self s))))))
       (world s)).
Proof.
  intros Hb Ha. unfold available in Ha.
  unfold open, port_set_port, bind, get_port_name, log, put_port, get_baud_rate,
    get_port, port_set_baudrate, port_open, serial.open, serial.set_baudrate.
  simpl. destruct (baud_rate (self s) <? 0) eqn:Eb; [apply Z.ltb_lt in Eb; lia|].
  simpl. destruct (serial.device (port_name (self s)) (world s)) as [d|];
    [discriminate | reflexivity].
Qed.

(** X1: when the device exists and the platform can set it to the
    client's baud rate, [open] followed by [close] returns normally,
    takes the session to Open and back to Closed, writes and reads
    nothing, and adds exactly the two debug records that quote the port
    name. *)
Theorem open_then_close (s : State) :
  0 <= baud_rate (self s) ->
  rate_settable (port_name (self s)) (baud_rate (self s)) (world s) = true ->
  exists s1 s2,
    open s = Returns tt s1 /\
    session (self s1) = Open /\
    close s1 = Returns tt s2 /\
    session (self s2) = Closed /\
    wire (world s2) = wire (world s) /\
    records (logger (self s2)) =
      (records (logger (self s))
       ++ [(DEBUG, ("opening " ++ port_name (self s))%string);
           (DEBUG, ("closing " ++ port_name (self s))%string)])%list.
Proof.
  intros Hb Ha. rewrite (open_available s Hb Ha).
  eexists. eexists. split; [reflexivity|]. split; [reflexivity|].
  split; [eapply close_with_port; reflexivity|].
  simpl. split; [reflexivity|]. split; [reflexivity|].
  rewrite <- app_assoc. reflexivity.
Qed.

Lemma open_then_close_witness :
  0 <= baud_rate (self fresh) /\
  rate_settable (port_name (self fresh)) (baud_rate (self fresh)) (world fresh)
  = true /\
  exists s2,
    (open ;; close) fresh = Returns tt s2 /\
    session (self s2) = Closed /\
    wire (world s2) = wire (world fresh).
Proof.
  split; [simpl; lia|]. split; [reflexivity|].
  destruct (open_then_close fresh ltac:(simpl; lia) eq_refl)
    as (s1 & s2 & E1 & _ & E2 & C & W & _).
  exists s2. unfold bind. rewrite E1, E2. auto.
Defined.

(** X2: when the device cannot be opened, [open] raises
    [SerialException] and transfers nothing; the [port] attribute it
    created stays behind, closed, so that a later [command] or [query]
    is a guarded no-op that logs the error instead of raising. *)
Theorem open_failure_leaves_closed_port (s : State) (code : string) :
  0 <= baud_rate (self s) ->
  available (port_name (self s)) (world s) = false ->
  exists s1,
    open s = Raises SerialException s1 /\
    world s1 = world s /\
    session (self s1) = Closed /\
    (exists s2, command code s1 = Returns tt s2 /\ world s2 = world s /\
                new_records s1 s2 = [(ERROR, not_open_msg)]) /\
    (exists s2, query code s1 = Returns None s2 /\ world s2 = world s /\
                new_records s1 s2 = [(ERROR, not_open_msg)]).
Proof.
  intros Hb Ha. rewrite (open_unavailable s Hb Ha).
  eexists. split; [reflexivity|]. split; [reflexivity|]. split; [reflexivity|].
  match goal with
  | |- (exists s2, command _ ?s1 = _ /\ _ /\ _) /\ _ =>
      destruct (closed_port_guarded code s1 _ eq_refl eq_refl) as (Ec & Eq)
  end.
  rewrite Ec, Eq. unfold new_records. simpl.
  split; eexists; (split; [reflexivity|]); (split; [reflexivity|]);
    apply skipn_length_app.
Qed.

Lemma open_failure_leaves_closed_port_witness :
  exists s1,
    open (mkState (init "COM9" None None) silent_line) = Raises SerialException s1 /\
    exists s2, command "PWON" s1 = Returns tt s2 /\ world s2 = silent_line.
Proof.
  destruct (open_failure_leaves_closed_port
              (mkState (init "COM9" None None) silent_line) "PWON"
              ltac:(simpl; lia) eq_refl)
    as (s1 & E & _ & _ & (s2 & Ec & W & _) & _).
  exists s1. split; [exact E|]. exists s2. split; [exact Ec | exact W].
Defined.

(** X3: [close] on a client that was never opened logs its debug line
    and then raises [AttributeError]; on a client whose port object
    exists it always returns with the session Closed and the line
    untouched, also when the port is closed already. *)
Theorem close_edge_cases (s : State) :
  (port (self s) = None ->
   exists s', close s = Raises (AttributeError "port") s' /\
              world s' = world s /\
              new_records s s' = [(DEBUG, ("closing " ++ port_name (self s))%string)]) /\
  (port (self s) <> None ->
   exists s1 s2,
     close s = Returns tt s1 /\ session (self s1) = Closed /\ world s1 = world s /\
     close s1 = Returns tt s2 /\ session (self s2) = Closed /\ world s2 = world s /\
     port (self s2) = port (self s1)).
Proof.
  split.
  - intros Hp. unfold close, port_close, bind, get_port_name, log, get_port.
    simpl. rewrite Hp. eexists. split; [reflexivity|]. split; [reflexivity|].
    unfold new_records. simpl. apply skipn_length_app.
  - intros Hp. destruct (port (self s)) as [p|] eqn:E; [|contradiction].
    rewrite (close_with_port s p E).
    eexists. eexists. split; [reflexivity|]. split; [reflexivity|].
    split; [reflexivity|].
    split; [eapply close_with_port; reflexivity|].
    split; [reflexivity|]. split; reflexivity.
Qed.

Lemma close_edge_cases_witness :
  (exists s', close fresh = Raises (AttributeError "port") s') /\
  (exists s1, close closed_again = Returns tt s1 /\ session (self s1) = Closed).
Proof.
  destruct (close_edge_cases fresh) as (H1 & _).
  destruct (close_edge_cases closed_again) as (_ & H2).
  split.
  - destruct (H1 eq_refl) as (s' & E & _). exists s'. exact E.
  - destruct H2 as (s1 & s2 & E & C & _); [discriminate|].
    exists s1. split; [exact E | exact C].
Defined.

(** ** More on reading a reply *)

Section ReadUntilExact.

Variable terminator : ascii.
Variable size : nat.

(** Too few bytes and no terminator among them: the read never
    returns. *)
Lemma read_until_loop_starved (incoming line : string) :
  count_byte terminator incoming = 0%nat ->
  (String.length line + String.length incoming < size)%nat ->
  serial.read_until_loop terminator size line incoming = None.
Proof.
  revert line. induction incoming as [|x incoming IH]; intros line; simpl.
  - reflexivity.
  - destruct (Ascii.eqb x terminator) eqn:Ex; [discriminate|].
    simpl. intros Hc Hl.
    destruct (size <=? String.length (line ++ String x ""))%nat eqn:El.
    + apply Nat.leb_le in El. rewrite length_append in El. simpl in El. lia.
    + apply IH; [exact Hc|]. rewrite length_append. simpl. lia.
Qed.

(** A terminator arriving before the size is reached: the read returns
    the bytes up to and including it and leaves what follows. *)
Lemma read_until_loop_line (body rest line : string) :
  count_byte terminator body = 0%nat ->
  (String.length line + String.length body < size)%nat ->
  serial.read_until_loop terminator size line (body ++ String terminator rest)
  = Some (line ++ body ++ String terminator "", rest).
Proof.
  revert line. induction body as [|x body IH]; intros line; simpl.
  - intros _ _. now rewrite Ascii.eqb_refl.
  - destruct (Ascii.eqb x terminator) eqn:Ex; [discriminate|].
    simpl. intros Hc Hl.
    destruct (size <=? String.length (line ++ String x ""))%nat eqn:El.
    + apply Nat.leb_le in El. rewrite length_append in El. simpl in El. lia.
    + rewrite IH; [|exact Hc|rewrite length_append; simpl; lia].
      now rewrite append_assoc.
Qed.

End ReadUntilExact.

(** [query] on an open port when one reply line is on its way. *)
Lemma query_Open_line (q body rest : string) (s : State) :
  session (self s) = Open ->
  rx (world s) = body ++ String CR rest ->
  count_byte CR body = 0%nat ->
  (String.length body < 135)%nat ->
  query q s =
  Returns (Some (body ++ String CR ""))
    (mkState (self s)
       (mkWorld (devices (world s))
                (wire (world s)
                 ++ [Tx (q ++ "?" ++ String CR ""); Rx (body ++ String CR "")])
                rest)).
Proof.
  intros Ho Hrx Hc Hl. rewrite (query_Open q s Ho), Hrx.
  rewrite (read_until_loop_line CR 135 body rest "" Hc) by (simpl; lia).
  reflexivity.
Qed.

(** X4: on an open session [query] returns exactly when the incoming
    bytes hold a carriage return or number at least 135; otherwise the
    call never returns: the question has been written, the session is
    still open, and no exception is raised. *)
Theorem query_returns_iff_reply_complete (code : string) (s : State) :
  session (self s) = Open ->
  ((exists r s', query code s = Returns r s') <->
   (count_byte CR (rx (world s)) <> 0%nat \/
    (135 <= String.length (rx (world s)))%nat)) /\
  ((count_byte CR (rx (world s)) = 0%nat /\
    (String.length (rx (world s)) < 135)%nat) ->
   exists s',
     query code s = Blocks s' /\
     wire (world s') = (wire (world s) ++ [Tx (code ++ "?" ++ String CR "")])%list /\
     session (self s') = Open).
Proof.
  intros Ho. rewrite (query_Open code s Ho). split; [split|].
  - intros (r & s' & E).
    destruct (serial.read_until_loop CR 135 "" (rx (world s))) as [[d rest]|] eqn:El;
      [|discriminate].
    destruct (Nat.eq_dec (count_byte CR (rx (world s))) 0) as [Hc|Hc]; [|now left].
    right. destruct (le_lt_dec 135 (String.length (rx (world s)))) as [H|H];
      [exact H|].
    rewrite (read_until_loop_starved CR 135 _ "" Hc) in El by (simpl; lia).
    discriminate.
  - intros H.
    destruct (serial.read_until_loop CR 135 "" (rx (world s))) as [[d rest]|] eqn:El.
    + eexists. eexists. reflexivity.
    + apply read_until_loop_None in El. destruct El as (Hc & Hl).
      destruct H as [H|H]; [contradiction|].
      destruct Hl as [Hl|Hl]; [rewrite Hl in H; simpl in H; lia | simpl in Hl; lia].
  - intros (Hc & Hl).
    rewrite (read_until_loop_starved CR 135 _ "" Hc) by (simpl; lia).
    eexists. split; [reflexivity|]. split; [reflexivity | exact Ho].
Qed.

Lemma query_returns_iff_reply_complete_witness :
  session (self (opened_with "PWO")) = Open /\
  exists s',
    query "PW" (opened_with "PWO") = Blocks s' /\
    wire (world s') = [Tx ("PW?" ++ String CR "")].
Proof.
  split; [reflexivity|].
  destruct (query_returns_iff_reply_complete "PW" (opened_with "PWO") eq_refl)
    as (_ & H).
  destruct H as (s' & E & W & _); [split; [reflexivity | simpl; lia]|].
  exists s'. split; [exact E | exact W].
Defined.

(** X5: on an open session, when the incoming bytes start with a line
    of fewer than 135 bytes closed by a carriage return, [query]
    returns exactly that line with its carriage return, and what
    follows the carriage return stays on the line for the next read. *)
Theorem query_returns_first_line (code body rest : string) (s : State) :
  session (self s) = Open ->
  rx (world s) = body ++ String CR rest ->
  count_byte CR body = 0%nat ->
  (String.length body < 135)%nat ->
  exists s',
    query code s = Returns (Some (body ++ String CR "")) s' /\
    rx (world s') = rest /\
    wire (world s') =
      (wire (world s)
       ++ [Tx (code ++ "?" ++ String CR ""); Rx (body ++ String CR "")])%list /\
    self s' = self s.
Proof.
  intros Ho Hrx Hc Hl. rewrite (query_Open_line code body rest s Ho Hrx Hc Hl).
  eexists. split; [reflexivity|]. repeat split.
Qed.

Lemma query_returns_first_line_witness :
  exists s',
    query "SI" (opened_with ("SITUNER" ++ String CR "MV45"))
    = Returns (Some ("SITUNER" ++ String CR "")) s' /\
    rx (world s') = "MV45".
Proof.
  destruct (query_returns_first_line "SI" "SITUNER" "MV45"
              (opened_with ("SITUNER" ++ String CR "MV45"))
              eq_refl eq_refl eq_refl ltac:(simpl; lia))
    as (s' & E & R & _).
  exists s'. split; [exact E | exact R].
Defined.

(** X6: two queries in a row on an open session take two reply lines
    in order: the first query gets the first line, the second the
    line after it, and the line shows write, read, write, read. *)
Theorem two_queries_take_two_lines
        (code1 code2 line1 line2 rest : string) (s : State) :
  session (self s) = Open ->
  rx (world s) = line1 ++ String CR (line2 ++ String CR rest) ->
  count_byte CR line1 = 0%nat -> (String.length line1 < 135)%nat ->
  count_byte CR line2 = 0%nat -> (String.length line2 < 135)%nat ->
  exists s',
    (r1 <- query code1 ;; r2 <- query code2 ;; ret (r1, r2)) s
    = Returns (Some (line1 ++ String CR ""), Some (line2 ++ String CR "")) s' /\
    rx (world s') = rest /\
    wire (world s') =
      (wire (world s)
       ++ [Tx (code1 ++ "?" ++ String CR ""); Rx (line1 ++ String CR "");
           Tx (code2 ++ "?" ++ String CR ""); Rx (line2 ++ String CR "")])%list.
Proof.
  intros Ho Hrx Hc1 Hl1 Hc2 Hl2. unfold bind at 1.
  rewrite (query_Open_line code1 line1 _ s Ho Hrx Hc1 Hl1).
  unfold bind at 1.
  erewrite (query_Open_line code2 line2 rest);
    [|exact Ho | reflexivity | exact Hc2 | exact Hl2].
  eexists. split; [reflexivity|]. simpl. split; [reflexivity|].
  rewrite <- app_assoc. reflexivity.
Qed.

Lemma two_queries_take_two_lines_witness :
  exists s',
    (r1 <- query "PW" ;; r2 <- query "MV" ;; ret (r1, r2))
      (opened_with ("PWON" ++ String CR ("MV45" ++ String CR "")))
    = Returns (Some ("PWON" ++ String CR ""), Some ("MV45" ++ String CR "")) s' /\
    rx (world s') = "".
Proof.
  destruct (two_queries_take_two_lines "PW" "MV" "PWON" "MV45" ""
              (opened_with ("PWON" ++ String CR ("MV45" ++ String CR "")))
              eq_refl eq_refl eq_refl ltac:(simpl; lia) eq_refl ltac:(simpl; lia))
    as (s' & E & R & _).
  exists s'. split; [exact E | exact R].
Defined.


(** ** Status queries *)

(** The common shape of [query_power], [query_volume] and
    [query_source] on an open port. *)
Lemma status_query_Open (m q label : string) (s : State) :
  session (self s) = Open ->
  (log INFO m ;; r <- query q ;; log INFO (label ++ format_opt r)) s =
  match serial.read_until_loop CR 135 "" (rx (world s)) with
  | Some (data, rest) =>
      Returns tt
        (mkState
           (set_logger (Logger_log INFO (label ++ data)
                          (Logger_log INFO m (logger (self s))))
                       (self s))
           (mkWorld (devices (world s))
                    (wire (world s) ++ [Tx (q ++ "?" ++ String CR ""); Rx data])
                    rest))
  | None =>
      Blocks
        (mkState
           (set_logger (Logger_log INFO m (logger (self s))) (self s))
           (mkWorld (devices (world s))
                    (wire (world s) ++ [Tx (q ++ "?" ++ String CR "")])
                    (rx (world s))))
  end.
Proof.
  intros Ho. unfold bind, log. cbv beta iota.
  rewrite query_Open by exact Ho. simpl.
  destruct (serial.read_until_loop CR 135 "" (rx (world s))) as [[data rest]|];
    reflexivity.
Qed.

(** The same three on a port object that is closed. *)
Lemma status_query_closed (m q label : string) (s : State) (p : serial.Serial) :
  port (self s) = Some p ->
  serial.is_open p = false ->
  (log INFO m ;; r <- query q ;; log INFO (label ++ format_opt r)) s =
  Returns tt
    (mkState
       (set_logger
          (mkLogger (level (logger (self s)))
                    (records (logger (self s))
                     ++ [(INFO, m); (ERROR, not_open_msg);
                         (INFO, (label ++ "None")%string)]))
          (self s))
       (world s)).
Proof.
  intros Hp Hc. unfold bind, log. cbv beta iota.
  match goal with
  | |- context [query q ?s1] =>
      destruct (closed_port_guarded q s1 p Hp Hc) as (_ & E); rewrite E
  end.
  unfold set_logger, Logger_log. simpl. rewrite <- !app_assoc. reflexivity.
Qed.

(** X7: [query_volume] and [query_source], like [query_power], log
    what the receiver sent byte for byte: on an open session with a
    reply line on its way each writes its two-letter code, ["?"] and a
    carriage return, reads the line, and hands the logger two INFO
    records, the second being its label followed by the line with the
    carriage return still attached. *)
Theorem status_queries_log_reply (body rest : string) (s : State) :
  session (self s) = Open ->
  rx (world s) = body ++ String CR rest ->
  count_byte CR body = 0%nat ->
  (String.length body < 135)%nat ->
  (exists s',
      query_volume s = Returns tt s' /\
      wire (world s') =
        (wire (world s) ++ [Tx ("MV?" ++ String CR ""); Rx (body ++ String CR "")])%list /\
      rx (world s') = rest /\
      new_records s s' =
        [(INFO, "querying volume status");
         (INFO, ("volume: " ++ body ++ String CR "")%string)]) /\
  (exists s',
      query_source s = Returns tt s' /\
      wire (world s') =
        (wire (world s) ++ [Tx ("SI?" ++ String CR ""); Rx (body ++ String CR "")])%list /\
      rx (world s') = rest /\
      new_records s s' =
        [(INFO, "querying input source");
         (INFO, ("source: " ++ body ++ String CR "")%string)]) /\
  (exists s',
      query_power s = Returns tt s' /\
      wire (world s') =
        (wire (world s) ++ [Tx ("PW?" ++ String CR ""); Rx (body ++ String CR "")])%list /\
      rx (world s') = rest /\
      new_records s s' =
        [(INFO, "querying power status");
         (INFO, ("power: " ++ body ++ String CR "")%string)]).
Proof.
  intros Ho Hrx Hc Hl.
  unfold query_volume, query_source, query_power.
  rewrite !status_query_Open by exact Ho. rewrite Hrx.
  rewrite (read_until_loop_line CR 135 body rest "" Hc) by (simpl; lia).
  repeat split; eexists; (split; [reflexivity|]); (split; [reflexivity|]);
    (split; [reflexivity|]); unfold new_records; simpl;
    rewrite <- app_assoc; apply skipn_length_app.
Qed.

Lemma status_queries_log_reply_witness :
  exists s',
    query_volume (opened_with ("MV45" ++ String CR "")) = Returns tt s' /\
    new_records (opened_with ("MV45" ++ String CR "")) s' =
      [(INFO, "querying volume status");
       (INFO, ("volume: MV45" ++ String CR "")%string)].
Proof.
  destruct (status_queries_log_reply "MV45" ""
              (opened_with ("MV45" ++ String CR ""))
              eq_refl eq_refl eq_refl ltac:(simpl; lia))
    as ((s' & E & _ & _ & R) & _).
  exists s'. split; [exact E | exact R].
Defined.

(** X8: on a client whose port object exists and is closed, the three
    status queries transfer nothing and return normally; each hands
    the logger its INFO line, the ERROR record of the guard, and then
    its label followed by the text [None], the result of the guarded
    [query]. *)
Theorem status_queries_on_closed_port (s : State) (p : serial.Serial) :
  port (self s) = Some p ->
  serial.is_open p = false ->
  (exists s',
      query_power s = Returns tt s' /\ world s' = world s /\
      new_records s s' =
        [(INFO, "querying power status"); (ERROR, not_open_msg);
         (INFO, "power: None")]) /\
  (exists s',
      query_volume s = Returns tt s' /\ world s' = world s /\
      new_records s s' =
        [(INFO, "querying volume status"); (ERROR, not_open_msg);
         (INFO, "volume: None")]) /\
  (exists s',
      query_source s = Returns tt s' /\ world s' = world s /\
      new_records s s' =
        [(INFO, "querying input source"); (ERROR, not_open_msg);
         (INFO, "source: None")]).
Proof.
  intros Hp Hc. unfold query_power, query_volume, query_source.
  rewrite !(status_query_closed _ _ _ s p Hp Hc).
  repeat split; eexists; (split; [reflexivity|]); (split; [reflexivity|]);
    unfold new_records; simpl; apply skipn_length_app.
Qed.

Lemma status_queries_on_closed_port_witness :
  exists s',
    query_power closed_again = Returns tt s' /\
    world s' = world closed_again /\
    new_records closed_again s' =
      [(INFO, "querying power status"); (ERROR, not_open_msg);
       (INFO, "power: None")].
Proof.
  destruct (status_queries_on_closed_port closed_again
              (serial.mkSerial false 9600 (Some "COM4")) eq_refl eq_refl)
    as (H & _).
  exact H.
Defined.

(** X9: on an open session whose logger threshold is above INFO, as
    it is for a client constructed without a log level, a status query
    emits nothing through the handler, however the call ends: the
    reply is read off the line and handed to the logger at INFO only. *)
Theorem status_reply_not_emitted_above_info (s : State) :
  session (self s) = Open ->
  level_no INFO < level_no (level (logger (self s))) ->
  emitted (logger (self (final (query_power s)))) = emitted (logger (self s)) /\
  emitted (logger (self (final (query_volume s)))) = emitted (logger (self s)) /\
  emitted (logger (self (final (query_source s)))) = emitted (logger (self s)) /\
  (forall name baud, level (logger (init name None baud)) = ERROR).
Proof.
  intros Ho Hl. unfold query_power, query_volume, query_source.
  rewrite !status_query_Open by exact Ho.
  assert (Hf : (level_no (level (logger (self s))) <=? 20) = false).
  { apply Z.leb_gt. exact Hl. }
  destruct (serial.read_until_loop CR 135 "" (rx (world s))) as [[data rest]|];
    unfold emitted; simpl; rewrite !filter_app; simpl; rewrite Hf;
    rewrite ?app_nil_r; repeat split.
Qed.

Lemma status_reply_not_emitted_above_info_witness :
  session (self (opened_with ("PWON" ++ String CR ""))) = Open /\
  In (INFO, ("power: PWON" ++ String CR "")%string)
     (records (logger (self (final (query_power
                                      (opened_with ("PWON" ++ String CR ""))))))) /\
  emitted (logger (self (final (query_power
                                  (opened_with ("PWON" ++ String CR ""))))))
  = [].
Proof.
  split; [reflexivity|]. split; [vm_compute; auto|].
  destruct (status_reply_not_emitted_above_info
              (opened_with ("PWON" ++ String CR "")) eq_refl ltac:(simpl; lia))
    as (H & _).
  rewrite H. reflexivity.
Defined.

(** ** More on the volume mapping *)

Lemma new_volume_top (percent : Z) :
  100 <= percent <= 102 -> new_volume percent = max_volume.
Proof.
  intros [Hlo Hhi]. unfold new_volume, max_volume, min_volume.
  assert (40 <= percent * (65 - 25) / 100) by (apply Z.div_le_lower_bound; lia).
  assert (percent * (65 - 25) / 100 < 41) by (apply Z.div_lt_upper_bound; lia).
  lia.
Qed.

(** [set_volume] on an open port when the guard lets the value
    through, as an equation. *)
Lemma set_volume_Open_eq (volume_level : Z) (s : State) :
  session (self s) = Open ->
  new_volume volume_level <= max_volume ->
  set_volume volume_level s =
  Returns tt
    (mkState
       (set_logger
          (Logger_log INFO
             ("setting volume to " ++ str_of_int volume_level ++ "% (MV"
              ++ str_of_int (new_volume volume_level) ++ ")")
             (logger (self s)))
          (self s))
       (mkWorld (devices (world s))
                (wire (world s)
                 ++ [Tx (("MV" ++ str_of_int (new_volume volume_level))
                         ++ String CR "")])
                (rx (world s)))).
Proof.
  intros Ho Hle. unfold set_volume.
  destruct (new_volume volume_level >? max_volume) eqn:G.
  - apply Z.gtb_lt in G. lia.
  - apply log_then_command_Open. exact Ho.
Qed.

(** X10: in terms of the percentage, the safety check of [set_volume]
    fires from 103 upwards and not before: on an open session the line
    is left untouched exactly when the percentage is at least 103,
    while 100, 101 and 102 are all transmitted as [MV65]. *)
Theorem set_volume_guard_threshold (percent : Z) (s : State) :
  session (self s) = Open ->
  (world (final (set_volume percent s)) = world s <-> 103 <= percent) /\
  (100 <= percent <= 102 ->
   writes (world (final (set_volume percent s))) =
     (writes (world s) ++ [("MV65" ++ String CR "")%string])%list).
Proof.
  intros Ho. split; [split|].
  - intros Hw. apply new_volume_above_max.
    destruct (Z_le_gt_dec (new_volume percent) max_volume) as [Hle|Hgt];
      [|exact Hgt].
    rewrite (set_volume_Open_eq percent s Ho Hle) in Hw. simpl in Hw.
    apply (f_equal wire) in Hw. simpl in Hw.
    apply (f_equal (@List.length Event)) in Hw.
    rewrite length_app in Hw. simpl in Hw. lia.
  - intros H. apply new_volume_above_max in H.
    rewrite (set_volume_rejects percent s H). reflexivity.
  - intros H. pose proof (new_volume_top percent H) as Ht.
    rewrite (set_volume_Open_eq percent s Ho) by (rewrite Ht; lia).
    rewrite Ht. unfold writes. simpl. rewrite flat_map_app. reflexivity.
Qed.

Lemma set_volume_guard_threshold_witness :
  session (self opened) = Open /\
  writes (world (final (set_volume 102 opened))) = [("MV65" ++ String CR "")%string] /\
  world (final (set_volume 103 opened)) = world opened.
Proof.
  split; [reflexivity|].
  destruct (set_volume_guard_threshold 102 opened eq_refl) as (_ & H102).
  destruct (set_volume_guard_threshold 103 opened eq_refl) as ((_ & H103) & _).
  split; [apply H102; lia | apply H103; lia].
Defined.

(** X11: the device value [set_volume] computes never decreases when
    the percentage grows, grows by exactly 2 for every 5 percent, and
    is 25 plus two fifths of the percentage rounded down. *)
Theorem new_volume_monotone_step (p q : Z) :
  p <= q ->
  new_volume p <= new_volume q /\
  new_volume (p + 5) = new_volume p + 2 /\
  5 * (new_volume p - min_volume) <= 2 * p < 5 * (new_volume p - min_volume) + 5.
Proof.
  intros Hpq. unfold new_volume, max_volume, min_volume.
  replace (65 - 25) with 40 by reflexivity.
  assert (Hq : forall x, x * 40 / 100 = 2 * x / 5).
  { intros x. replace (x * 40) with ((2 * x) * 20) by lia.
    replace 100 with (5 * 20) by reflexivity.
    apply Z.div_mul_cancel_r; lia. }
  rewrite !Hq. split; [|split].
  - assert (2 * p / 5 <= 2 * q / 5) by (apply Z.div_le_mono; lia). lia.
  - replace (2 * (p + 5)) with (2 * p + 2 * 5) by lia.
    rewrite Z.div_add by lia. lia.
  - pose proof (Z.div_mod (2 * p) 5 ltac:(lia)) as Hd.
    pose proof (Z.mod_pos_bound (2 * p) 5 ltac:(lia)) as Hm. lia.
Qed.

Lemma new_volume_monotone_step_witness :
  new_volume 1 <= new_volume 2 /\
  new_volume 6 = new_volume 1 + 2 /\
  new_volume 1 = 25 /\ new_volume 2 = 25 /\ new_volume 3 = 26.
Proof.
  destruct (new_volume_monotone_step 1 2 ltac:(lia)) as (H1 & H2 & _).
  split; [exact H1|]. split; [exact H2|]. repeat split.
Defined.

(** ** The runner *)

(** With the query flag off, dispatch on an open session returns
    normally, changes nothing of the client but its log, and puts on
    the line the text of the sub-command, if it has one. *)
Lemma func_command_Open (args : Args) (s : State) :
  session (self s) = Open ->
  args_query args = false ->
  exists lg',
    func args s =
    Returns tt
      (mkState (set_logger lg' (self s))
         (mkWorld (devices (world s))
                  (wire (world s)
                   ++ match command_text (args_sub args) with
                      | Some t => [Tx (t ++ String CR "")]
                      | None => []
                      end)
                  (rx (world s)))).
Proof.
  intros Ho Hq. unfold func. rewrite Hq.
  destruct s as [[lg pn br po] [d w i]].
  destruct (args_sub args) as [[l|]|power|source]; simpl.
  - destruct (new_volume l >? max_volume) eqn:G.
    + rewrite set_volume_rejects by (apply Z.gtb_lt in G; lia).
      eexists. simpl. rewrite app_nil_r. reflexivity.
    + rewrite set_volume_Open_eq; [|exact Ho|].
      * eexists. reflexivity.
      * rewrite Z.gtb_ltb in G. apply Z.ltb_ge in G. exact G.
  - exists lg. rewrite app_nil_r. reflexivity.
  - unfold power_command, power_on, power_off.
    destruct (String.eqb power "ON"); [|destruct (String.eqb power "OFF")].
    + rewrite log_then_command_Open by exact Ho. eexists. reflexivity.
    + rewrite log_then_command_Open by exact Ho. eexists. reflexivity.
    + exists lg. simpl. rewrite app_nil_r. reflexivity.
  - unfold set_source. rewrite log_then_command_Open by exact Ho.
    eexists. reflexivity.
Qed.

(** With the query flag on, dispatch is the status query of the
    sub-command, whatever else the namespace holds. *)
Lemma func_query (args : Args) :
  args_query args = true ->
  exists m,
    func args =
    (log INFO m ;;
     r <- query (status_code (args_sub args)) ;;
     log INFO (status_label (args_sub args) ++ format_opt r)).
Proof.
  intros Hq. unfold func. rewrite Hq.
  destruct (args_sub args); eexists; reflexivity.
Qed.

(** The client [main] constructs, once [open] has succeeded. *)
Lemma main_opened (args : Args) (w : World) :
  available (args_port args) w = true ->
  open (mkState (init (args_port args) (Some (args_verbosity args)) None) w) =
  Returns tt
    (mkState
       (mkRemote
          (mkLogger (args_verbosity args)
                    [(DEBUG, "logging initialized");
                     (DEBUG, ("opening " ++ args_port args)%string)])
          (args_port args) 9600
          (Some (serial.mkSerial true 9600 (Some (args_port args)))))
       w).
Proof.
  intros Ha. rewrite open_available;
    [reflexivity | simpl; lia | apply rate_settable_9600; exact Ha].
Qed.

(** X12: [main] raises exactly when the serial device cannot be
    opened; the exception is then [SerialException], nothing has been
    transferred, [close] has not run, and the logger holds only the
    two debug records of construction and opening. *)
Theorem main_raises_iff_device_unavailable (args : Args) (w : World) :
  raises (main args w) = negb (available (args_port args) w) /\
  (available (args_port args) w = false ->
   exists s',
     main args w = Raises SerialException s' /\
     world s' = w /\
     session (self s') = Closed /\
     records (logger (self s')) =
       [(DEBUG, "logging initialized");
        (DEBUG, ("opening " ++ args_port args)%string)]).
Proof.
  destruct (available (args_port args) w) eqn:Ha.
  - split; [|discriminate]. unfold main, bind.
    rewrite (main_opened args w Ha).
    match goal with
    | |- context [func args ?s1] => set (s1' := s1)
    end.
    assert (Ho : session (self s1') = Open) by reflexivity.
    destruct (args_query args) eqn:Hq.
    + destruct (func_query args Hq) as (m & E). rewrite E.
      rewrite (status_query_Open m _ _ s1' Ho).
      destruct (serial.read_until_loop CR 135 "" (rx (world s1'))) as [[d r]|];
        reflexivity.
    + destruct (func_command_Open args s1' Ho Hq) as (lg' & E). rewrite E.
      reflexivity.
  - split.
    + unfold main, bind. rewrite open_unavailable; [reflexivity | simpl; lia | exact Ha].
    + intros _. unfold main, bind.
      rewrite open_unavailable; [|simpl; lia | exact Ha].
      eexists. split; [reflexivity|]. repeat split.
Qed.

Lemma main_raises_iff_device_unavailable_witness :
  exists s',
    main (mkArgs "COM9" false ERROR (Power "ON")) silent_line
    = Raises SerialException s' /\
    world s' = silent_line.
Proof.
  destruct (main_raises_iff_device_unavailable
              (mkArgs "COM9" false ERROR (Power "ON")) silent_line) as (_ & H).
  destruct (H eq_refl) as (s' & E & W & _).
  exists s'. split; [exact E | exact W].
Defined.

(** X13: when the device can be opened and the query flag is off,
    [main] returns normally with the session closed again, having
    opened the port named on the command line at 9600 baud and put on
    the line at most one command: [MV] and the device value for a
    volume level that passes the safety check, [PWON] or [PWSTANDBY]
    for power ON or OFF, [SI] and the name for a source, each followed
    by one carriage return; and nothing for a volume run without a
    level, for a level the check rejects, and for any other power
    word.  Nothing is read. *)
Theorem main_command_run (args : Args) (w : World) :
  available (args_port args) w = true ->
  args_query args = false ->
  exists s',
    main args w = Returns tt s' /\
    session (self s') = Closed /\
    port (self s') = Some (serial.mkSerial false 9600 (Some (args_port args))) /\
    world s' =
      mkWorld (devices w)
              (wire w ++ match command_text (args_sub args) with
                         | Some t => [Tx (t ++ String CR "")]
                         | None => []
                         end)
              (rx w).
Proof.
  intros Ha Hq. unfold main, bind. rewrite (main_opened args w Ha).
  match goal with
  | |- context [func args ?s1] =>
      destruct (func_command_Open args s1 eq_refl Hq) as (lg' & E); rewrite E
  end.
  erewrite close_with_port by reflexivity.
  eexists. split; [reflexivity|]. repeat split.
Qed.

Lemma main_command_run_witness :
  exists s',
    main (mkArgs "COM4" false ERROR (Volume (Some 50))) silent_line
    = Returns tt s' /\
    session (self s') = Closed /\
    wire (world s') = [Tx ("MV45" ++ String CR "")].
Proof.
  destruct (main_command_run (mkArgs "COM4" false ERROR (Volume (Some 50)))
              silent_line eq_refl eq_refl) as (s' & E & C & _ & W).
  exists s'. split; [exact E|]. split; [exact C|]. rewrite W. reflexivity.
Defined.

(** X14: when the device can be opened, the query flag is on and a
    reply line is on its way, [main] asks about the code of the
    sub-command (whatever level, power word or source the namespace
    also holds), reads the line, and returns with the session closed
    again.  The reply is handed to the logger at INFO under the label
    of the sub-command, so it reaches the handler exactly when the
    verbosity is INFO or DEBUG. *)
Theorem main_query_run (args : Args) (w : World) (body rest : string) :
  available (args_port args) w = true ->
  args_query args = true ->
  rx w = body ++ String CR rest ->
  count_byte CR body = 0%nat ->
  (String.length body < 135)%nat ->
  exists s',
    main args w = Returns tt s' /\
    session (self s') = Closed /\
    world s' =
      mkWorld (devices w)
              (wire w ++ [Tx (status_code (args_sub args) ++ "?" ++ String CR "");
                          Rx (body ++ String CR "")])
              rest /\
    In (INFO, (status_label (args_sub args) ++ body ++ String CR "")%string)
       (records (logger (self s'))) /\
    (In (INFO, (status_label (args_sub args) ++ body ++ String CR "")%string)
        (emitted (logger (self s')))
     <-> level_no (args_verbosity args) <= level_no INFO).
Proof.
  intros Ha Hq Hrx Hc Hl. unfold main, bind. rewrite (main_opened args w Ha).
  destruct (func_query args Hq) as (m & E). rewrite E.
  rewrite status_query_Open by reflexivity. simpl rx. rewrite Hrx.
  rewrite (read_until_loop_line CR 135 body rest "" Hc) by (simpl; lia).
  erewrite close_with_port by reflexivity.
  eexists. split; [reflexivity|]. split; [reflexivity|]. split; [reflexivity|].
  match goal with
  | |- ?P /\ _ =>
      assert (Hin : P) by (simpl; right; right; right; left; reflexivity)
  end.
  split; [exact Hin|].
  unfold emitted. rewrite filter_In. simpl fst. simpl level.
  split.
  - intros (_ & H). apply Z.leb_le in H. exact H.
  - intros H. split; [exact Hin | apply Z.leb_le; exact H].
Qed.

Lemma main_query_run_witness :
  exists s',
    main (mkArgs "COM4" true INFO (Volume (Some 50)))
         (mkWorld [("COM4", [])] [] ("MV45" ++ String CR ""))
    = Returns tt s' /\
    wire (world s') = [Tx ("MV?" ++ String CR ""); Rx ("MV45" ++ String CR "")] /\
    In (INFO, ("volume: MV45" ++ String CR "")%string) (emitted (logger (self s'))).
Proof.
  destruct (main_query_run (mkArgs "COM4" true INFO (Volume (Some 50)))
              (mkWorld [("COM4", [])] [] ("MV45" ++ String CR "")) "MV45" ""
              eq_refl eq_refl eq_refl eq_refl ltac:(simpl; lia))
    as (s' & E & _ & W & _ & Em).
  exists s'. split; [exact E|]. split; [rewrite W; reflexivity|].
  apply Em. simpl. lia.
Defined.

(** X15: when the device can be opened, the query flag is on and the
    receiver sends no carriage return and fewer than 135 bytes, [main]
    never returns: the question is on the line, the read does not
    come back, [close] is not reached and the port stays open. *)
Theorem main_query_blocks (args : Args) (w : World) :
  available (args_port args) w = true ->
  args_query args = true ->
  count_byte CR (rx w) = 0%nat ->
  (String.length (rx w) < 135)%nat ->
  exists s',
    main args w = Blocks s' /\
    session (self s') = Open /\
    world s' =
      mkWorld (devices w)
              (wire w ++ [Tx (status_code (args_sub args) ++ "?" ++ String CR "")])
              (rx w).
Proof.
  intros Ha Hq Hc Hl. unfold main, bind. rewrite (main_opened args w Ha).
  destruct (func_query args Hq) as (m & E). rewrite E.
  rewrite status_query_Open by reflexivity. simpl rx.
  rewrite (read_until_loop_starved CR 135 (rx w) "" Hc) by (simpl; lia).
  eexists. split; [reflexivity|]. split; reflexivity.
Qed.

Lemma main_query_blocks_witness :
  exists s',
    main (mkArgs "COM4" true ERROR (Power "ON")) silent_line = Blocks s' /\
    session (self s') = Open /\
    wire (world s') = [Tx ("PW?" ++ String CR "")].
Proof.
  destruct (main_query_blocks (mkArgs "COM4" true ERROR (Power "ON")) silent_line
              eq_refl eq_refl eq_refl ltac:(simpl; lia)) as (s' & E & O & W).
  exists s'. split; [exact E|]. split; [exact O|]. rewrite W. reflexivity.
Defined.

(** X16: a volume run whose level the safety check rejects, 103
    percent or more, ends normally with nothing transferred; the
    rejection reaches the handler exactly when the verbosity is ERROR
    or below, so that with [-v CRITICAL] the run is silent. *)
Theorem main_volume_rejected (args : Args) (w : World) (l : Z) :
  available (args_port args) w = true ->
  args_query args = false ->
  args_sub args = Volume (Some l) ->
  103 <= l ->
  exists s',
    main args w = Returns tt s' /\
    world s' = w /\
    session (self s') = Closed /\
    (In (ERROR, ("calculated volume setting above max volume level: "
                 ++ str_of_int (new_volume l))%string)
        (emitted (logger (self s')))
     <-> level_no (args_verbosity args) <= level_no ERROR).
Proof.
  intros Ha Hq Hs Hl. unfold main, bind. rewrite (main_opened args w Ha).
  unfold func. rewrite Hs, Hq. unfold volume_command.
  rewrite set_volume_rejects by (apply new_volume_above_max; exact Hl).
  erewrite close_with_port by reflexivity.
  eexists. split; [reflexivity|]. split; [reflexivity|]. split; [reflexivity|].
  unfold emitted. rewrite filter_In. simpl fst. simpl level.
  split.
  - intros (_ & H). apply Z.leb_le in H. exact H.
  - intros H. split; [|apply Z.leb_le; exact H].
    simpl. right. right. left. reflexivity.
Qed.

Lemma main_volume_rejected_witness :
  exists s',
    main (mkArgs "COM4" false ERROR (Volume (Some 150))) silent_line
    = Returns tt s' /\
    world s' = silent_line /\
    In (ERROR, "calculated volume setting above max volume level: 85")
       (emitted (logger (self s'))).
Proof.
  destruct (main_volume_rejected (mkArgs "COM4" false ERROR (Volume (Some 150)))
              silent_line 150 eq_refl eq_refl eq_refl ltac:(lia))
    as (s' & E & W & _ & Em).
  exists s'. split; [exact E|]. split; [exact W|].
  apply Em. simpl. lia.
Defined.


(** ** What operations leave alone *)

Lemma preserves_ret {A X} (f : State -> X) (a : A) : preserves f (ret a).
Proof. intros s. reflexivity. Qed.

Lemma preserves_bind {A B X} (f : State -> X) (m : M A) (k : A -> M B) :
  preserves f m -> (forall a, preserves f (k a)) -> preserves f (bind m k).
Proof.
  intros Hm Hk s. unfold bind. specialize (Hm s).
  destruct (m s) as [a s1|e s1|s1]; simpl in *; [|exact Hm|exact Hm].
  rewrite (Hk a s1). exact Hm.
Qed.

Lemma preserves_get_port {X} (f : State -> X) : preserves f get_port.
Proof. intros s. unfold get_port. destruct (port (self s)); reflexivity. Qed.

Lemma preserves_get_port_name {X} (f : State -> X) : preserves f get_port_name.
Proof. intros s. reflexivity. Qed.

Lemma preserves_get_baud_rate {X} (f : State -> X) : preserves f get_baud_rate.
Proof. intros s. reflexivity. Qed.

Lemma port_log (l : Level) (m : string) : preserves the_port (log l m).
Proof. intros s. reflexivity. Qed.

Lemma port_port_write (data : string) : preserves the_port (port_write data).
Proof.
  intros s. unfold port_write, the_port.
  destruct (port (self s)) as [p|] eqn:E; [|exact E].
  destruct (serial.write data p (world s)); exact E.
Qed.

Lemma port_port_read_until (t : ascii) (n : nat) :
  preserves the_port (port_read_until t n).
Proof.
  intros s. unfold port_read_until, the_port.
  destruct (port (self s)) as [p|] eqn:E; [|exact E].
  destruct (serial.read_until t n p (world s)); exact E.
Qed.

Lemma rx_log (l : Level) (m : string) : preserves the_rx (log l m).
Proof. intros s. reflexivity. Qed.

Lemma rx_put_port (p : serial.Serial) : preserves the_rx (put_port p).
Proof. intros s. reflexivity. Qed.

Lemma rx_port_write (data : string) : preserves the_rx (port_write data).
Proof.
  intros s. unfold port_write, the_rx.
  destruct (port (self s)) as [p|]; [|reflexivity].
  unfold serial.write. destruct (serial.is_open p); reflexivity.
Qed.

Lemma rx_port_set_baudrate (b : Z) : preserves the_rx (port_set_baudrate b).
Proof.
  intros s. unfold port_set_baudrate, the_rx.
  destruct (port (self s)) as [p|]; [|reflexivity].
  destruct (serial.set_baudrate b p); reflexivity.
Qed.

Lemma rx_port_open : preserves the_rx port_open.
Proof.
  intros s. unfold port_open, the_rx.
  destruct (port (self s)) as [p|]; [|reflexivity].
  destruct (serial.open (world s) p); reflexivity.
Qed.

Create HintDb pres.
#[local] Hint Resolve preserves_ret preserves_get_port preserves_get_port_name
  preserves_get_baud_rate port_log port_port_write port_port_read_until
  rx_log rx_put_port rx_port_write rx_port_set_baudrate rx_port_open : pres.

Ltac pres :=
  repeat first
    [ apply preserves_bind; [|intros ?]
    | match goal with
      | |- preserves _ (if ?c then _ else _) => destruct c
      end
    | solve [auto with pres] ].

Ltac unfold_methods :=
  unfold run, returns_None, open, close, port_close, port_set_port, query,
    command, power_off, power_on, query_power, query_volume, set_volume,
    query_source, set_source.

(** X17: no operation other than [open] and [close] touches the port
    object, however it ends; in particular a command or query never
    opens or closes the session. *)
Theorem device_operations_keep_port (o : Op) (s : State) :
  is_lifecycle o = false ->
  port (self (final (run o s))) = port (self s) /\
  session (self (final (run o s))) = session (self s).
Proof.
  intros Hl.
  assert (H : preserves the_port (run o)).
  { destruct o; try discriminate; unfold_methods; pres. }
  specialize (H s). unfold the_port in H. split; [exact H|].
  unfold session. now rewrite H.
Qed.

Lemma device_operations_keep_port_witness :
  session (self (final (run (OpSetVolume 50) opened))) = Open /\
  session (self (final (run OpQueryPower closed_again))) = Closed.
Proof.
  destruct (device_operations_keep_port (OpSetVolume 50) opened eq_refl) as (_ & H1).
  destruct (device_operations_keep_port OpQueryPower closed_again eq_refl) as (_ & H2).
  split; [rewrite H1 | rewrite H2]; reflexivity.
Defined.




(** ** The log *)

Lemma level_log (l : Level) (m : string) : preserves the_level (log l m).
Proof. intros s. reflexivity. Qed.

Lemma level_put_port (p : serial.Serial) : preserves the_level (put_port p).
Proof. intros s. reflexivity. Qed.

Lemma level_port_write (data : string) : preserves the_level (port_write data).
Proof.
  intros s. unfold port_write, the_level.
  destruct (port (self s)) as [p|]; [|reflexivity].
  destruct (serial.write data p (world s)); reflexivity.
Qed.

Lemma level_port_read_until (t : ascii) (n : nat) :
  preserves the_level (port_read_until t n).
Proof.
  intros s. unfold port_read_until, the_level.
  destruct (port (self s)) as [p|]; [|reflexivity].
  destruct (serial.read_until t n p (world s)); reflexivity.
Qed.

Lemma level_port_set_baudrate (b : Z) : preserves the_level (port_set_baudrate b).
Proof.
  intros s. unfold port_set_baudrate, the_level.
  destruct (port (self s)) as [p|]; [|reflexivity].
  destruct (serial.set_baudrate b p); reflexivity.
Qed.

Lemma level_port_open : preserves the_level port_open.
Proof.
  intros s. unfold port_open, the_level.
  destruct (port (self s)) as [p|]; [|reflexivity].
  destruct (serial.open (world s) p); reflexivity.
Qed.

#[local] Hint Resolve level_log level_put_port level_port_write
  level_port_read_until level_port_set_baudrate level_port_open : pres.

(** A computation that leaves the log as it was. *)
Lemma grows_silent {A} (m : M A) :
  preserves (fun s => records (logger (self s))) m -> log_grows m.
Proof.
  intros H s. exists []. rewrite (H s), app_nil_r. split; reflexivity.
Qed.

Lemma grows_bind {A B} (m : M A) (k : A -> M B) :
  log_grows m -> (forall a, log_grows (k a)) -> log_grows (bind m k).
Proof.
  intros Hm Hk s. unfold bind. destruct (Hm s) as (n1 & E1 & F1).
  destruct (m s) as [a s1|e s1|s1]; simpl in *;
    [|exists n1; split; assumption|exists n1; split; assumption].
  destruct (Hk a s1) as (n2 & E2 & F2).
  exists (n1 ++ n2)%list. rewrite E2, E1, app_assoc. split; [reflexivity|].
  rewrite forallb_app, F1, F2. reflexivity.
Qed.

Lemma grows_log (l : Level) (msg : string) :
  client_level l = true -> log_grows (log l msg).
Proof.
  intros Hl s. exists [(l, msg)]. split; [reflexivity|].
  simpl. now rewrite Hl.
Qed.

Lemma grows_ret {A} (a : A) : log_grows (ret a).
Proof. apply grows_silent. intros s. reflexivity. Qed.

Lemma grows_get_port : log_grows get_port.
Proof. apply grows_silent, preserves_get_port. Qed.

Lemma grows_put_port (p : serial.Serial) : log_grows (put_port p).
Proof. apply grows_silent. intros s. reflexivity. Qed.

Lemma grows_get_port_name : log_grows get_port_name.
Proof. apply grows_silent. intros s. reflexivity. Qed.

Lemma grows_get_baud_rate : log_grows get_baud_rate.
Proof. apply grows_silent. intros s. reflexivity. Qed.

Lemma grows_port_write (data : string) : log_grows (port_write data).
Proof.
  apply grows_silent. intros s. unfold port_write.
  destruct (port (self s)) as [p|]; [|reflexivity].
  destruct (serial.write data p (world s)); reflexivity.
Qed.

Lemma grows_port_read_until (t : ascii) (n : nat) :
  log_grows (port_read_until t n).
Proof.
  apply grows_silent. intros s. unfold port_read_until.
  destruct (port (self s)) as [p|]; [|reflexivity].
  destruct (serial.read_until t n p (world s)); reflexivity.
Qed.

Lemma grows_port_set_baudrate (b : Z) : log_grows (port_set_baudrate b).
Proof.
  apply grows_silent. intros s. unfold port_set_baudrate.
  destruct (port (self s)) as [p|]; [|reflexivity].
  destruct (serial.set_baudrate b p); reflexivity.
Qed.

Lemma grows_port_open : log_grows port_open.
Proof.
  apply grows_silent. intros s. unfold port_open.
  destruct (port (self s)) as [p|]; [|reflexivity].
  destruct (serial.open (world s) p); reflexivity.
Qed.

Create HintDb grows.
#[local] Hint Resolve grows_ret grows_get_port grows_put_port
  grows_get_port_name grows_get_baud_rate grows_port_write
  grows_port_read_until grows_port_set_baudrate grows_port_open : grows.

Ltac grows :=
  repeat first
    [ apply grows_bind; [|intros ?]
    | apply grows_log; reflexivity
    | match goal with
      | |- log_grows (if ?c then _ else _) => destruct c
      end
    | solve [auto with grows] ].

Lemma grows_run (o : Op) : log_grows (run o).
Proof. destruct o; unfold_methods; grows. Qed.

Lemma level_run (o : Op) : preserves the_level (run o).
Proof. destruct o; unfold_methods; pres. Qed.

(** Nothing the client logs passes a threshold above ERROR. *)
Lemma client_records_filtered (thr : Level) (new : list (Level * string)) :
  level_no ERROR < level_no thr ->
  forallb (fun r => client_level (fst r)) new = true ->
  filter (fun r => level_no thr <=? level_no (fst r)) new = [].
Proof.
  intros Ht. induction new as [|[l m] new IH]; simpl; [reflexivity|].
  intros H. apply andb_true_iff in H. destruct H as (Hl & Hn).
  rewrite (IH Hn).
  destruct l; simpl in *; try discriminate;
    (destruct (level_no thr <=? _) eqn:E; [apply Z.leb_le in E; lia | reflexivity]).
Qed.

(** X19: no operation changes the threshold of the logger or removes
    a record: the log after an operation is the log before it followed
    by new records, each at DEBUG, INFO or ERROR and never at WARNING
    or CRITICAL.  Hence with the threshold at CRITICAL no operation
    ever emits anything. *)
Theorem log_only_grows (o : Op) (s : State) :
  level (logger (self (final (run o s)))) = level (logger (self s)) /\
  (exists new,
      records (logger (self (final (run o s)))) =
        (records (logger (self s)) ++ new)%list /\
      forallb (fun r => client_level (fst r)) new = true) /\
  (level (logger (self s)) = CRITICAL ->
   emitted (logger (self (final (run o s)))) = emitted (logger (self s))).
Proof.
  pose proof (level_run o s) as Hl. unfold the_level in Hl.
  destruct (grows_run o s) as (new & E & F).
  split; [exact Hl|]. split; [exists new; split; assumption|].
  intros Hc. unfold emitted. rewrite Hl, E, filter_app.
  rewrite (client_records_filtered _ new) by (rewrite ?Hc; simpl; lia || exact F).
  apply app_nil_r.
Qed.

Lemma log_only_grows_witness :
  emitted (logger (self (final (run (OpSetVolume 150)
     (mkState (mkRemote (mkLogger CRITICAL []) "COM4" 9600
                        (Some (serial.mkSerial true 9600 (Some "COM4"))))
              silent_line)))))
  = [].
Proof.
  destruct (log_only_grows (OpSetVolume 150)
              (mkState (mkRemote (mkLogger CRITICAL []) "COM4" 9600
                                 (Some (serial.mkSerial true 9600 (Some "COM4"))))
                       silent_line))
    as (_ & _ & H).
  rewrite (H eq_refl). reflexivity.
Defined.
